(** * Session/query state machine of the assistant page

    A shallow embedding of [frontend/src/app/insurance/page.tsx]
    (the React component [MedicalPage]): its state variables, its event
    handlers, and the event loop that interleaves user events, network
    completions and speech-engine callbacks on one thread.

    Conventions.
    - Every [useState] variable is a field of [State]; a handler is a
      computation in the monad [M], which threads the state and records,
      in order, every impure call the handler makes (state setters,
      [alert], [console.error], [fetch], [recognition.start]).
    - An [async] handler is split at its [await]: the part before it is
      one computation, the part after it is a second computation taking
      the way the awaited promise settled.
    - A handler reads the state variables of the render it was created
      in; handlers are dispatched on the committed render, so reads see
      the current state.  The code after an [await] reads no state
      variable, only setters, so no stale closure is observable. *)

From stdpp Require Import base list strings.

Local Open Scope list_scope.

(** ** Data model (lines 5-19, 28-31) *)

Inductive Role := human | ai.

Module ChatMessage.
Record t := mk { type : Role; content : string }.
End ChatMessage.

Record LatestResponse := mkLatest
  { answer : string; thoughts : string; validation : string; source : string }.

(** [APIResponse].  The type declares [history] as required, but both
    readers guard it ([data.history || []], [if (data.history)]); the
    embedding keeps the field optional, [None] standing for a missing or
    [null] property.  An array, even empty, is truthy, and so is any
    object: [Some _] is exactly the truthy case. *)
Module APIResponse.
Record t := mk
  { history : option (list ChatMessage.t);
    latest_response : option LatestResponse }.
End APIResponse.

Record File := mkFile { name : string; bytes : string }.

Module Attached.
Inductive Kind := image | doc.
Record t := mk { file : File; type : Kind }.
End Attached.

#[global] Instance Kind_eq_dec : EqDecision Attached.Kind.
Proof. solve_decision. Defined.

(** The component's state variables (lines 22-33). *)
Record State := mkState
  { history : list ChatMessage.t;
    latestResponse : option LatestResponse;
    query : string;
    isLoading : bool;
    showUploadMenu : bool;
    attachedFile : option Attached.t;
    isListening : bool;
    lang : string }.

(** The values passed to [useState]. *)
Definition initialState : State :=
  {| history := []; latestResponse := None; query := "";
     isLoading := false; showUploadMenu := false; attachedFile := None;
     isListening := false; lang := "en-US" |}.

(** ** Requests *)

(** A [FormData] is an ordered list of entries; [append] never replaces. *)
Inductive FormValue := FText (s : string) | FBlob (f : File).
Definition FormData := list (string * FormValue).

Definition append (fd : FormData) (k : string) (v : FormValue) : FormData :=
  fd ++ [(k, v)].

Definition has (fd : FormData) (k : string) : bool :=
  existsb (fun e => String.eqb (fst e) k) fd.

Inductive Method := GET | POST.

Record Request := mkRequest
  { url : string; method : Method; body : option FormData;
    credentials : string }.

(** Which [await]/[then] is waiting on a request. *)
Inductive Awaiter := in_useEffect | in_handleSubmit | in_clearChat.

#[global] Instance Awaiter_eq_dec : EqDecision Awaiter.
Proof. solve_decision. Defined.

(** How [res.json()] settles, and how [fetch] settles.  [fetch] rejects
    on a network failure only; any HTTP status fulfils it. *)
Inductive Json := Malformed | Parsed (data : APIResponse.t).
Record Response := mkResponse { status : nat; json : Json }.
Inductive Settled := Rejected | Fulfilled (res : Response).

(** ** Speech recognition objects (lines 71-83) *)

Record Recognition := mkRecognition
  { rec_lang : string; interimResults : bool; maxAlternatives : nat }.

Record Alternative := mkAlt { transcript : string; confidence : nat }.

(** [event.results]: a list of results, each a list of alternatives. *)
Record ResultEvent := mkResultEvent { results : list (list Alternative) }.

(** ** The handler monad *)

Inductive Call :=
| setHistory_ (v : list ChatMessage.t)
| setLatestResponse_ (v : option LatestResponse)
| setQuery_ (v : string)
| setIsLoading_ (v : bool)
| setShowUploadMenu_ (v : bool)
| setAttachedFile_ (v : option Attached.t)
| setIsListening_ (v : bool)
| setLang_ (v : string)
| preventDefault_
| alert_ (msg : string)
| console_error_ (msg : string)
| fetch_ (k : Awaiter) (r : Request)
| recognition_start_ (r : Recognition)
| input_click_ (k : Attached.Kind)
| uncaught_ (what : string).

Definition M (A : Type) : Type := State -> A * State * list Call.

Definition ret {A} (a : A) : M A := fun s => (a, s, []).

Definition bind {A B} (m : M A) (f : A -> M B) : M B :=
  fun s => let '(a, s1, c1) := m s in
           let '(b, s2, c2) := f a s1 in
           (b, s2, c1 ++ c2).

Declare Scope handler_scope.
Delimit Scope handler_scope with handler.
Notation "x ← y ; z" := (bind y (fun x => z))
  (at level 20, y at level 100, z at level 200, only parsing) : handler_scope.
Notation "x ;; z" := (bind x (fun _ => z))
  (at level 100, z at level 200, only parsing, right associativity) : handler_scope.
Local Open Scope handler_scope.

Definition read {A} (proj : State -> A) : M A := fun s => (proj s, s, []).
Definition call (c : Call) : M unit := fun s => (tt, s, [c]).

(** The state after a handler, and the calls it made. *)
Definition after {A} (m : M A) (s : State) : State := snd (fst (m s)).
Definition calls_of {A} (m : M A) (s : State) : list Call := snd (m s).

(** Setters.  [setHistory] is used with a value and with an updater. *)
Definition setHistoryWith (f : list ChatMessage.t -> list ChatMessage.t) : M unit :=
  fun s =>
    let v := f (history s) in
    (tt, {| history := v; latestResponse := latestResponse s;
            query := query s; isLoading := isLoading s;
            showUploadMenu := showUploadMenu s;
            attachedFile := attachedFile s;
            isListening := isListening s; lang := lang s |},
     [setHistory_ v]).

Definition setHistory (v : list ChatMessage.t) : M unit :=
  setHistoryWith (fun _ => v).

Definition setLatestResponse (v : option LatestResponse) : M unit :=
  fun s =>
    (tt, {| history := history s; latestResponse := v;
            query := query s; isLoading := isLoading s;
            showUploadMenu := showUploadMenu s;
            attachedFile := attachedFile s;
            isListening := isListening s; lang := lang s |},
     [setLatestResponse_ v]).

Definition setQuery (v : string) : M unit :=
  fun s =>
    (tt, {| history := history s; latestResponse := latestResponse s;
            query := v; isLoading := isLoading s;
            showUploadMenu := showUploadMenu s;
            attachedFile := attachedFile s;
            isListening := isListening s; lang := lang s |},
     [setQuery_ v]).

Definition setIsLoading (v : bool) : M unit :=
  fun s =>
    (tt, {| history := history s; latestResponse := latestResponse s;
            query := query s; isLoading := v;
            showUploadMenu := showUploadMenu s;
            attachedFile := attachedFile s;
            isListening := isListening s; lang := lang s |},
     [setIsLoading_ v]).

Definition setShowUploadMenu (v : bool) : M unit :=
  fun s =>
    (tt, {| history := history s; latestResponse := latestResponse s;
            query := query s; isLoading := isLoading s;
            showUploadMenu := v;
            attachedFile := attachedFile s;
            isListening := isListening s; lang := lang s |},
     [setShowUploadMenu_ v]).

Definition setAttachedFile (v : option Attached.t) : M unit :=
  fun s =>
    (tt, {| history := history s; latestResponse := latestResponse s;
            query := query s; isLoading := isLoading s;
            showUploadMenu := showUploadMenu s;
            attachedFile := v;
            isListening := isListening s; lang := lang s |},
     [setAttachedFile_ v]).

Definition setIsListening (v : bool) : M unit :=
  fun s =>
    (tt, {| history := history s; latestResponse := latestResponse s;
            query := query s; isLoading := isLoading s;
            showUploadMenu := showUploadMenu s;
            attachedFile := attachedFile s;
            isListening := v; lang := lang s |},
     [setIsListening_ v]).

Definition setLang (v : string) : M unit :=
  fun s =>
    (tt, {| history := history s; latestResponse := latestResponse s;
            query := query s; isLoading := isLoading s;
            showUploadMenu := showUploadMenu s;
            attachedFile := attachedFile s;
            isListening := isListening s; lang := v |},
     [setLang_ v]).

(** JavaScript truthiness of the two values the guards test. *)
Definition truthy_string (s : string) : bool := negb (String.eqb s "").
Definition truthy {A} (o : option A) : bool := bool_decide (is_Some o).

(** ** Handlers *)

(** 1. Fetch history on load (lines 41-49). *)
Definition hydrateRequest : Request :=
  {| url := "http://localhost:5000/api/medical"; method := GET;
     body := None; credentials := "include" |}.

Definition useEffect_fetchHistory : M unit :=
  call (fetch_ in_useEffect hydrateRequest).

Definition fetchHistory_settled (r : Settled) : M unit :=
  match r with
  | Fulfilled {| json := Parsed data |} =>
      setHistory (default [] (APIResponse.history data)) ;;
      setLatestResponse (APIResponse.latest_response data)
  | _ => call (console_error_ "Failed to load history:")
  end.

(** 3. Voice input (lines 57-84).  [SpeechRecognition] tells whether
    [window.SpeechRecognition || window.webkitSpeechRecognition] is
    defined. *)
Definition toggleVoice (SpeechRecognition : bool) : M unit :=
  if negb SpeechRecognition then
    call (alert_ "Browser does not support speech recognition.")
  else
    listening ← read isListening;
    if listening then setIsListening false
    else
      l ← read lang;
      call (recognition_start_
              {| rec_lang := l; interimResults := false; maxAlternatives := 1 |}).

Definition onstart : M unit := setIsListening true.
Definition onend : M unit := setIsListening false.

(** [event.results[0][0].transcript]; indexing past the end yields
    [undefined], whose property read throws. *)
Definition onresult (event : ResultEvent) : M unit :=
  match results event !! 0 with
  | Some r0 =>
      match r0 !! 0 with
      | Some alt => setQuery (transcript alt)
      | None => call (uncaught_ "TypeError")
      end
  | None => call (uncaught_ "TypeError")
  end.

(** 4. Form submit (lines 87-124). *)
Definition buildFormData (query : string) (attachedFile : option Attached.t) : FormData :=
  let formData := append [] "query" (FText query) in
  match attachedFile with
  | Some a =>
      match Attached.type a with
      | Attached.image => append formData "image" (FBlob (Attached.file a))
      | Attached.doc => append formData "document" (FBlob (Attached.file a))
      end
  | None => formData
  end.

Definition submitRequest (formData : FormData) : Request :=
  {| url := "http://localhost:5000/api/medical"; method := POST;
     body := Some formData; credentials := "include" |}.

(** Up to the [await] of line 105. *)
Definition handleSubmit : M unit :=
  call preventDefault_ ;;
  q ← read query;
  a ← read attachedFile;
  if negb (truthy_string q) && negb (truthy a) then ret tt
  else
    setIsLoading true ;;
    setHistoryWith (fun prev => prev ++ [ChatMessage.mk human q]) ;;
    call (fetch_ in_handleSubmit (submitRequest (buildFormData q a))).

(** From the [await] on: [try] body, [catch], [finally]. *)
Definition handleSubmit_settled (r : Settled) : M unit :=
  match r with
  | Fulfilled {| json := Parsed data |} =>
      match APIResponse.history data with
      | Some h => setHistory h
      | None => ret tt
      end ;;
      match APIResponse.latest_response data with
      | Some l => setLatestResponse (Some l)
      | None => ret tt
      end ;;
      setQuery "" ;;
      setAttachedFile None
  | _ => call (console_error_ "Error submitting query:")
  end ;;
  setIsLoading false.

(** 5. Clear chat (lines 127-134); no [try] around the [await]. *)
Definition clearRequest : Request :=
  {| url := "http://localhost:5000/api/medical/clear"; method := POST;
     body := None; credentials := "include" |}.

Definition clearChat : M unit := call (fetch_ in_clearChat clearRequest).

Definition clearChat_settled (r : Settled) : M unit :=
  match r with
  | Fulfilled _ => setHistory [] ;; setLatestResponse None
  | Rejected => call (uncaught_ "unhandled rejection")
  end.

(** Inline handlers of the markup (lines 232-324). *)
Definition onChange_query (value : string) : M unit := setQuery value.
Definition onChange_lang (value : string) : M unit := setLang value.

Definition onChange_file (k : Attached.Kind) (files : list File) : M unit :=
  match files !! 0 with
  | Some f => setAttachedFile (Some (Attached.mk f k))
  | None => ret tt
  end.

Definition onClick_plus : M unit :=
  m ← read showUploadMenu; setShowUploadMenu (negb m).

Definition onClick_upload (k : Attached.Kind) : M unit :=
  call (input_click_ k) ;; setShowUploadMenu false.

(** ** The event loop

    One thread runs the handlers.  Between two handlers the world holds
    the committed state, the requests that have been issued and have not
    settled, the recognition objects that have been started and have not
    ended, and the calls made so far. *)

Record World := mkWorld
  { page : State;
    inflight : list (Awaiter * Request);
    sessions : list Recognition;
    trace : list Call }.

Definition fetches (cs : list Call) : list (Awaiter * Request) :=
  omap (fun c => match c with fetch_ k r => Some (k, r) | _ => None end) cs.

Definition starts (cs : list Call) : list Recognition :=
  omap (fun c => match c with recognition_start_ r => Some r | _ => None end) cs.

(** Run one handler to completion and commit what it did. *)
Definition dispatch (m : M unit) (w : World) : World :=
  let cs := calls_of m (page w) in
  {| page := after m (page w);
     inflight := inflight w ++ fetches cs;
     sessions := sessions w ++ starts cs;
     trace := trace w ++ cs |}.

(** The code that resumes when a request settles. *)
Definition continuation (k : Awaiter) (r : Settled) : M unit :=
  match k with
  | in_useEffect => fetchHistory_settled r
  | in_handleSubmit => handleSubmit_settled r
  | in_clearChat => clearChat_settled r
  end.

Inductive Event :=
| settle (i : nat) (r : Settled)
| input_query (value : string)
| select_lang (value : string)
| choose_file (k : Attached.Kind) (files : list File)
| click_plus
| click_upload (k : Attached.Kind)
| click_voice
| rec_onstart (i : nat)
| rec_onresult (i : nat) (event : ResultEvent)
| rec_onend (i : nat)
| submit_form
| click_clear.

Section EventLoop.

(** Whether the host defines [SpeechRecognition] or
    [webkitSpeechRecognition]; fixed for the life of the page. *)
Variable SpeechRecognition : bool.

(** [step w e] is [None] when [e] cannot happen in [w]: a request or a
    recognition object that does not exist cannot call back.  Requests
    settle in any order.  The submit button carries
    [disabled={isLoading}] (line 354): while it is disabled neither a
    click nor the Enter key submits the form, so [onSubmit] does not run
    and the attempt leaves the world as it is. *)
Definition step (w : World) (e : Event) : option World :=
  match e with
  | settle i r =>
      match inflight w !! i with
      | Some (k, _) =>
          Some (dispatch (continuation k r)
                  {| page := page w; inflight := delete i (inflight w);
                     sessions := sessions w; trace := trace w |})
      | None => None
      end
  | input_query v => Some (dispatch (onChange_query v) w)
  | select_lang v => Some (dispatch (onChange_lang v) w)
  | choose_file k files => Some (dispatch (onChange_file k files) w)
  | click_plus => Some (dispatch onClick_plus w)
  | click_upload k =>
      if showUploadMenu (page w) then Some (dispatch (onClick_upload k) w)
      else None
  | click_voice => Some (dispatch (toggleVoice SpeechRecognition) w)
  | rec_onstart i =>
      match sessions w !! i with
      | Some _ => Some (dispatch onstart w)
      | None => None
      end
  | rec_onresult i ev =>
      match sessions w !! i with
      | Some _ => Some (dispatch (onresult ev) w)
      | None => None
      end
  | rec_onend i =>
      match sessions w !! i with
      | Some _ =>
          Some (dispatch onend
                  {| page := page w; inflight := inflight w;
                     sessions := delete i (sessions w); trace := trace w |})
      | None => None
      end
  | submit_form =>
      if isLoading (page w) then Some w else Some (dispatch handleSubmit w)
  | click_clear => Some (dispatch clearChat w)
  end.

Fixpoint run (w : World) (es : list Event) : option World :=
  match es with
  | [] => Some w
  | e :: es' =>
      match step w e with
      | Some w' => run w' es'
      | None => None
      end
  end.

(** The world once the component has mounted and its effect has run. *)
Definition mounted : World :=
  dispatch useEffect_fetchHistory
    {| page := initialState; inflight := []; sessions := []; trace := [] |}.

Definition reachable (w : World) : Prop := exists es, run mounted es = Some w.

End EventLoop.

(** A settlement after which the [try] body of [handleSubmit] does not
    complete: the [fetch] rejected, or [res.json()] did. *)
Definition failed (r : Settled) : bool :=
  match r with
  | Fulfilled {| json := Parsed _ |} => false
  | _ => true
  end.

Definition ok (status : nat) (data : APIResponse.t) : Settled :=
  Fulfilled {| status := status; json := Parsed data |}.

(** The [setQuery] calls among a list of calls. *)
Definition query_writes (cs : list Call) : list string :=
  omap (fun c => match c with setQuery_ v => Some v | _ => None end) cs.

(** Calls that write the session ([history], [latestResponse]). *)
Definition writes_session (c : Call) : bool :=
  match c with
  | setHistory_ _ | setLatestResponse_ _ => true
  | _ => false
  end.

(** Calls that write the composer ([query], [attachedFile]). *)
Definition writes_composer (c : Call) : bool :=
  match c with
  | setQuery_ _ | setAttachedFile_ _ => true
  | _ => false
  end.

(** The guard of line 89. *)
Definition nothing_to_send (s : State) : bool :=
  negb (truthy_string (query s)) && negb (truthy (attachedFile s)).

(** ** Invariants of the event loop *)

Definition is_submission (p : Awaiter * Request) : Prop := fst p = in_handleSubmit.

#[global] Instance is_submission_dec (p : Awaiter * Request) : Decision (is_submission p).
Proof. unfold is_submission. apply _. Defined.

(** Submissions that have been sent and have not settled. *)
Definition submissions_in_flight (w : World) : nat :=
  length (filter is_submission (inflight w)).

(** [isLoading] is set exactly while one submission is in flight. *)
Definition single_flight (w : World) : Prop :=
  submissions_in_flight w = if isLoading (page w) then 1 else 0.

(** A handler that neither touches [isLoading] nor sends a submission. *)
Definition bystander (m : M unit) : Prop :=
  forall s, isLoading (after m s) = isLoading s /\
            filter is_submission (fetches (calls_of m s)) = [].

(** A handler that neither touches [isListening] nor starts a
    recognition. *)
Definition silent (m : M unit) : Prop :=
  forall s, isListening (after m s) = isListening s /\
            starts (calls_of m s) = [].

(** Nothing is listening and nothing can call back. *)
Definition deaf (w : World) : Prop :=
  isListening (page w) = false /\ sessions w = [].

(** ** States and traces used as examples *)

Definition diabetes : State :=
  {| history := []; latestResponse := None; query := "What is diabetes?";
     isLoading := false; showUploadMenu := false; attachedFile := None;
     isListening := false; lang := "en-US" |}.

Definition with_scan : State :=
  {| history := []; latestResponse := None; query := "Is this normal?";
     isLoading := true; showUploadMenu := false;
     attachedFile := Some (Attached.mk (mkFile "scan.png" "") Attached.image);
     isListening := false; lang := "en-US" |}.

Definition seen : LatestResponse :=
  {| answer := "Rest."; thoughts := "t"; validation := "v"; source := "s" |}.

Definition two_entries : list ChatMessage.t :=
  [ChatMessage.mk human "What is diabetes?";
   ChatMessage.mk ai "A chronic condition."].

Definition asking : list Event := [input_query "What is diabetes?"; submit_form].

Definition dictating : list Event := [input_query "typed text"; click_voice].

(** A page on a host with speech recognition, listening. *)
Definition listening : list Event := [click_voice; rec_onstart 0].

Definition pdf_only : State :=
  {| history := []; latestResponse := None; query := "";
     isLoading := false; showUploadMenu := false;
     attachedFile := Some (Attached.mk (mkFile "policy.pdf" "") Attached.doc);
     isListening := false; lang := "en-US" |}.

(** ** What the component renders (lines 136-378)

    The markup is a function of the state; only the parts that depend on
    it are kept. *)

Record Bubble := mkBubble
  { key : nat; justify : string; colours : string; text : string }.

(** One entry of [history.map] (lines 153-170). *)
Definition bubble (idx : nat) (msg : ChatMessage.t) : Bubble :=
  {| key := idx;
     justify :=
       match ChatMessage.type msg with
       | human => "justify-end"
       | ai => "justify-start"
       end;
     colours :=
       match ChatMessage.type msg with
       | human => "bg-blue-500 text-white"
       | ai => "bg-white dark:bg-slate-700 border dark:border-slate-600 text-gray-800 dark:text-white"
       end;
     text := ChatMessage.content msg |}.

(** The lines of the accordion (lines 184-204), each under its own
    truthiness guard. *)
Inductive Detail :=
| SourceLine (s : string)
| ValidationLine (s : string)
| ThoughtsBlock (s : string).

Definition details (l : LatestResponse) : list Detail :=
  (if truthy_string (source l) then [SourceLine (source l)] else [])
  ++ (if truthy_string (validation l) then [ValidationLine (validation l)] else [])
  ++ (if truthy_string (thoughts l) then [ThoughtsBlock (thoughts l)] else []).

(** The detailed answer (lines 173-222); [innerHTML] is the answer as the
    server sent it. *)
Record Panel := mkPanel { accordion : list Detail; innerHTML : string }.

Definition latestPanel (latestResponse : option LatestResponse) : option Panel :=
  match latestResponse with
  | Some l =>
      if truthy_string (answer l)
      then Some {| accordion := details l; innerHTML := answer l |}
      else None
  | None => None
  end.

(** [attachedFile ? `Attached: ${attachedFile.file.name}` : fallback]
    (lines 289-298, 312-316). *)
Definition attachedOr (attachedFile : option Attached.t) (fallback : string) : string :=
  match attachedFile with
  | Some a => "Attached: " +:+ name (Attached.file a)
  | None => fallback
  end.

Record View := mkView
  { welcome : bool;
    bubbles : list Bubble;
    panel : option Panel;
    uploadMenu : bool;
    attachTitle : string;
    attachIcon : string;
    inputValue : string;
    placeholder : string;
    langValue : string;
    voiceTitle : string;
    submitDisabled : bool;
    submitIcon : string }.

Definition render (s : State) : View :=
  {| welcome := Nat.eqb (length (history s)) 0;
     bubbles := imap bubble (history s);
     panel := latestPanel (latestResponse s);
     uploadMenu := showUploadMenu s;
     attachTitle := attachedOr (attachedFile s) "Attach a file";
     attachIcon := if truthy (attachedFile s) then "fa-check-circle" else "fa-plus";
     inputValue := query s;
     placeholder := attachedOr (attachedFile s) "Ask a medical question...";
     langValue := lang s;
     voiceTitle := if isListening s then "Stop voice input" else "Start voice input";
     submitDisabled := isLoading s;
     submitIcon := if isLoading s then "fas fa-spinner fa-spin" else "fas fa-paper-plane" |}.

(** ** Choosing files, one dialog after the other (lines 255-276) *)

Definition choose (s : State) (c : Attached.Kind * list File) : State :=
  after (onChange_file (fst c) (snd c)) s.

Definition chooseAll (s : State) (cs : list (Attached.Kind * list File)) : State :=
  fold_left choose cs s.

(** ** The layout around the page ([RootLayout] and [NavLink]) *)

Record NavLinkView := mkNavLink
  { href : string; label : string; isActive : bool; className : string }.

Definition NavLink (href current label : string) : NavLinkView :=
  let isActive := String.eqb current href in
  {| href := href; label := label; isActive := isActive;
     className :=
       "px-4 py-1 rounded-full text-sm font-medium transition-all duration-300 "
       +:+ (if isActive
            then "bg-cosmic-glow text-white shadow-[0_0_10px_#6536F0]"
            else "text-gray-300 hover:text-white hover:bg-[#2A0E61]") |}.

(** The links of the navigation bar, in order. *)
Definition navLinks (pathname : string) : list NavLinkView :=
  [NavLink "/" pathname "Home";
   NavLink "/medical" pathname "Medical";
   NavLink "/islamic" pathname "Islamic";
   NavLink "/insurance" pathname "Insurance";
   NavLink "/about" pathname "About"].

Section Stars.

(** A star is an element whose position, size and timing come from
    [Math.random]; [createStar] builds one star from the state of the
    generator and returns the state after its draws. *)
Variables Star Random : Type.
Variable createStar : Random -> Star * Random.

(** The body of the [for] loop, [n] times. *)
Fixpoint appendStars (n : nat) (children : list Star) (g : Random) : list Star * Random :=
  match n with
  | 0 => (children, g)
  | S n' =>
      let '(star, g') := createStar g in
      appendStars n' (children ++ [star]) g'
  end.

(** The effect of [RootLayout]; the container is [None] when
    [getElementById] finds nothing. *)
Definition generateStars (container : option (list Star)) (g : Random)
  : option (list Star) * Random :=
  match container with
  | Some children =>
      if Nat.eqb (length children) 0 then
        let '(children', g') := appendStars 50 children g in
        (Some children', g')
      else (container, g)
  | None => (None, g)
  end.

End Stars.

(** ** The speech engine behind a recognition

    What the host's engine does between [recognition.start()] and the
    last callback, as the Web Speech API lays it down for a recognition
    whose [continuous] flag is left at its default, as the page leaves
    it: the engine starts, captures, and ends; while capturing it may
    deliver results that are not final only when [interimResults] was
    asked for, and after its final result it delivers nothing but the
    end.  Each result it delivers has between one and [maxAlternatives]
    alternatives. *)

Inductive Callback :=
| engine_start
| engine_result (ev : ResultEvent) (isFinal : bool)
| engine_end.

Inductive Phase := starting | capturing | recognised | ended.

Definition well_formed (rcg : Recognition) (ev : ResultEvent) : bool :=
  match results ev with
  | [] => false
  | rs =>
      forallb (fun r => (1 <=? length r) && (length r <=? maxAlternatives rcg)) rs
  end.

Definition engine (rcg : Recognition) (p : Phase) (c : Callback) : option Phase :=
  match p, c with
  | starting, engine_start => Some capturing
  | starting, engine_end => Some ended
  | capturing, engine_result ev isFinal =>
      if negb (well_formed rcg ev) then None
      else if isFinal then Some recognised
      else if interimResults rcg then Some capturing
      else None
  | capturing, engine_end => Some ended
  | recognised, engine_end => Some ended
  | _, _ => None
  end.

Fixpoint engine_run (rcg : Recognition) (p : Phase) (cbs : list Callback) : option Phase :=
  match cbs with
  | [] => Some p
  | c :: cbs' =>
      match engine rcg p c with
      | Some p' => engine_run rcg p' cbs'
      | None => None
      end
  end.

(** A listening session that has run to its end. *)
Definition completed (rcg : Recognition) (cbs : list Callback) : bool :=
  match engine_run rcg starting cbs with
  | Some ended => true
  | _ => false
  end.

(** A session in which the engine recognised something: it delivered a
    final result. *)
Definition successful (cbs : list Callback) : bool :=
  existsb (fun c => match c with engine_result _ true => true | _ => false end) cbs.

(** The handler the page attached for a callback of its [i]-th
    recognition (lines 76-81). *)
Definition callback_event (i : nat) (c : Callback) : Event :=
  match c with
  | engine_start => rec_onstart i
  | engine_result ev _ => rec_onresult i ev
  | engine_end => rec_onend i
  end.

(** [event.results[0][0]], when there is one. *)
Definition heard (ev : ResultEvent) : option Alternative :=
  match results ev !! 0 with
  | Some r0 => r0 !! 0
  | None => None
  end.

(** The settings [toggleVoice] gives a recognition (lines 73-74). *)
Definition as_configured (rcg : Recognition) : Prop :=
  interimResults rcg = false /\ maxAlternatives rcg = 1.

(** ** What the page may call *)

(** The calls the handlers can make on a host where speech recognition
    is available or not: the three requests, each in its one form; the
    alert, on a host without recognition only; a recognition, on a host
    with it only, final results and one alternative. *)
Definition expected (SpeechRecognition : bool) (c : Call) : Prop :=
  match c with
  | fetch_ in_useEffect r => r = hydrateRequest
  | fetch_ in_clearChat r => r = clearRequest
  | fetch_ in_handleSubmit r =>
      exists q a, r = submitRequest (buildFormData q a) /\ (q <> "" \/ a <> None)
  | alert_ msg =>
      SpeechRecognition = false /\
      msg = "Browser does not support speech recognition."
  | recognition_start_ rc =>
      SpeechRecognition = true /\
      interimResults rc = false /\ maxAlternatives rc = 1
  | _ => True
  end.

(** The handlers the event loop runs. *)
Inductive handler (SpeechRecognition : bool) : M unit -> Prop :=
| handler_settled k r : handler SpeechRecognition (continuation k r)
| handler_query v : handler SpeechRecognition (onChange_query v)
| handler_lang v : handler SpeechRecognition (onChange_lang v)
| handler_file k fs : handler SpeechRecognition (onChange_file k fs)
| handler_plus : handler SpeechRecognition onClick_plus
| handler_upload k : handler SpeechRecognition (onClick_upload k)
| handler_voice : handler SpeechRecognition (toggleVoice SpeechRecognition)
| handler_onstart : handler SpeechRecognition onstart
| handler_onresult ev : handler SpeechRecognition (onresult ev)
| handler_onend : handler SpeechRecognition onend
| handler_submit : handler SpeechRecognition handleSubmit
| handler_clear : handler SpeechRecognition clearChat.

(** An event other than a request settling. *)
Definition local (e : Event) : bool :=
  match e with
  | settle _ _ => false
  | _ => true
  end.

(** * Properties *)

(** ** Equations of the handlers *)

Ltac run_handler :=
  unfold after, calls_of, bind, ret, read, call,
    setHistory, setHistoryWith, setLatestResponse, setQuery, setIsLoading,
    setShowUploadMenu, setAttachedFile, setIsListening, setLang; cbn.

Lemma truthy_string_empty (q : string) : truthy_string q = false <-> q = "".
Proof.
  unfold truthy_string. destruct (String.eqb_spec q ""); cbn; split; congruence.
Qed.

Lemma truthy_None {A} (o : option A) : truthy o = false <-> o = None.
Proof.
  unfold truthy. destruct o; cbn; split; try congruence; try done.
Qed.

Lemma nothing_to_send_spec (s : State) :
  nothing_to_send s = true <-> query s = "" /\ attachedFile s = None.
Proof.
  unfold nothing_to_send.
  rewrite andb_true_iff, !negb_true_iff, truthy_string_empty, truthy_None.
  reflexivity.
Qed.

Lemma handleSubmit_skips (s : State) :
  nothing_to_send s = true ->
  handleSubmit s = (tt, s, [preventDefault_]).
Proof.
  unfold nothing_to_send, handleSubmit. run_handler. intros ->. reflexivity.
Qed.

Lemma handleSubmit_sends (s : State) :
  nothing_to_send s = false ->
  handleSubmit s =
    (tt,
     {| history := history s ++ [ChatMessage.mk human (query s)];
        latestResponse := latestResponse s; query := query s;
        isLoading := true; showUploadMenu := showUploadMenu s;
        attachedFile := attachedFile s; isListening := isListening s;
        lang := lang s |},
     [preventDefault_; setIsLoading_ true;
      setHistory_ (history s ++ [ChatMessage.mk human (query s)]);
      fetch_ in_handleSubmit
        (submitRequest (buildFormData (query s) (attachedFile s)))]).
Proof.
  unfold nothing_to_send, handleSubmit. run_handler. intros ->. reflexivity.
Qed.

Lemma after_handleSubmit_sends (s : State) :
  nothing_to_send s = false ->
  after handleSubmit s =
    {| history := history s ++ [ChatMessage.mk human (query s)];
       latestResponse := latestResponse s; query := query s;
       isLoading := true; showUploadMenu := showUploadMenu s;
       attachedFile := attachedFile s; isListening := isListening s;
       lang := lang s |}.
Proof. intros H. unfold after. rewrite (handleSubmit_sends s H). reflexivity. Qed.

Lemma calls_handleSubmit_sends (s : State) :
  nothing_to_send s = false ->
  calls_of handleSubmit s =
    [preventDefault_; setIsLoading_ true;
     setHistory_ (history s ++ [ChatMessage.mk human (query s)]);
     fetch_ in_handleSubmit
       (submitRequest (buildFormData (query s) (attachedFile s)))].
Proof. intros H. unfold calls_of. rewrite (handleSubmit_sends s H). reflexivity. Qed.

Lemma handleSubmit_settled_failed (r : Settled) (s : State) :
  failed r = true ->
  handleSubmit_settled r s =
    (tt,
     {| history := history s; latestResponse := latestResponse s;
        query := query s; isLoading := false;
        showUploadMenu := showUploadMenu s; attachedFile := attachedFile s;
        isListening := isListening s; lang := lang s |},
     [console_error_ "Error submitting query:"; setIsLoading_ false]).
Proof.
  destruct r as [|[st [|data]]]; cbn; try discriminate; intros _; reflexivity.
Qed.

Lemma handleSubmit_settled_ok (status : nat) (data : APIResponse.t) (s : State) :
  after (handleSubmit_settled (ok status data)) s =
    {| history := default (history s) (APIResponse.history data);
       latestResponse :=
         match APIResponse.latest_response data with
         | Some l => Some l
         | None => latestResponse s
         end;
       query := ""; isLoading := false;
       showUploadMenu := showUploadMenu s; attachedFile := None;
       isListening := isListening s; lang := lang s |}.
Proof.
  destruct data as [[h|] [l|]]; reflexivity.
Qed.

(** ** Submission: optimistic append, reconcile, failure *)

(** C1 (as amended).  A submission with non-empty text and no attachment
    appends one Human message carrying the text before its request
    settles, the request being in flight with the text as its only
    field.  When the response carries a history, the history becomes that
    list exactly, the optimistic entry being dropped with the rest of the
    local list; [latestResponse] becomes the response's
    [latest_response] when there is one and keeps its value from before
    the submission when there is none. *)
Theorem optimistic_then_reconcile (s : State) :
  query s <> "" -> attachedFile s = None ->
  let s1 := after handleSubmit s in
  history s1 = history s ++ [ChatMessage.mk human (query s)] /\
  length (history s1) = S (length (history s)) /\
  fetches (calls_of handleSubmit s) =
    [(in_handleSubmit, submitRequest [("query", FText (query s))])] /\
  forall status data h,
    APIResponse.history data = Some h ->
    let s2 := after (handleSubmit_settled (ok status data)) s1 in
    history s2 = h /\
    length (history s2) = length h /\
    latestResponse s2 =
      match APIResponse.latest_response data with
      | Some l => Some l
      | None => latestResponse s
      end.
Proof.
  intros Hq Ha s1.
  assert (Hsend : nothing_to_send s = false).
  { destruct (nothing_to_send s) eqn:E; [|done].
    apply nothing_to_send_spec in E as [E _]. done. }
  subst s1. rewrite (after_handleSubmit_sends s Hsend).
  rewrite (calls_handleSubmit_sends s Hsend); cbn. rewrite Ha.
  split; [done|]. split; [rewrite length_app; cbn; lia|].
  split; [reflexivity|].
  intros status data h Hh.
  rewrite handleSubmit_settled_ok; cbn. rewrite Hh. done.
Qed.

Lemma optimistic_then_reconcile_witness :
  length (history (after handleSubmit diabetes)) = 1 /\
  history (after (handleSubmit_settled
                    (ok 200 (APIResponse.mk
                               (Some [ChatMessage.mk human "What is diabetes?";
                                      ChatMessage.mk ai "A chronic condition."])
                               None)))
             (after handleSubmit diabetes))
  = [ChatMessage.mk human "What is diabetes?";
     ChatMessage.mk ai "A chronic condition."].
Proof.
  assert (Hq : query diabetes <> "") by discriminate.
  destruct (optimistic_then_reconcile diabetes Hq eq_refl) as (_ & Hlen & _ & Hrec).
  split; [exact Hlen|].
  exact (proj1 (Hrec 200 (APIResponse.mk _ None) _ eq_refl)).
Defined.

(** The claim C1 as written fails on its last clause: a response that
    carries a history and no [latest_response] leaves the answer of the
    previous turn in [latestResponse].  The trace hydrates a session
    whose latest answer is [seen], types a question, submits it, and
    receives a two-entry history without [latest_response]. *)
Lemma reconcile_keeps_previous_latest :
  exists w1 w2,
    run true (mounted) [settle 0 (ok 200 (APIResponse.mk (Some []) (Some seen)));
                        input_query "What is diabetes?"] = Some w1 /\
    query (page w1) <> "" /\ attachedFile (page w1) = None /\
    run true w1 [submit_form;
                 settle 0 (ok 200 (APIResponse.mk (Some two_entries) None))]
      = Some w2 /\
    history (page w2) = two_entries /\
    latestResponse (page w2) = Some seen /\
    latestResponse (page w2)
      <> APIResponse.latest_response (APIResponse.mk (Some two_entries) None).
Proof.
  eexists _, _. split; [reflexivity|]. cbn.
  split; [discriminate|]. split; [reflexivity|].
  split; [reflexivity|]. cbn.
  split; [reflexivity|]. split; [reflexivity|]. discriminate.
Qed.

(** C3.  When the request of a submission fails, nothing is rolled
    back: the history is the one from before the submission followed by
    the optimistic Human entry, which stays last, and the latest answer
    is the one from before the submission.  Whatever the state when the
    failure arrives, the failure path makes no call that writes the
    history or the latest answer and leaves both as they are. *)
Theorem submit_failure_no_rollback (s : State) (r : Settled) :
  nothing_to_send s = false -> failed r = true ->
  let s1 := after handleSubmit s in
  let s2 := after (handleSubmit_settled r) s1 in
  history s2 = history s ++ [ChatMessage.mk human (query s)] /\
  last (history s2) = Some (ChatMessage.mk human (query s)) /\
  latestResponse s2 = latestResponse s /\
  forall s',
    history (after (handleSubmit_settled r) s') = history s' /\
    latestResponse (after (handleSubmit_settled r) s') = latestResponse s' /\
    existsb writes_session (calls_of (handleSubmit_settled r) s') = false.
Proof.
  intros Hsend Hfail s1 s2. subst s2 s1.
  rewrite (after_handleSubmit_sends s Hsend).
  unfold after, calls_of.
  rewrite (handleSubmit_settled_failed r _ Hfail); cbn.
  rewrite last_snoc. repeat split; try done.
  all: rewrite (handleSubmit_settled_failed r _ Hfail); done.
Qed.

Lemma submit_failure_no_rollback_witness :
  history (after (handleSubmit_settled Rejected) (after handleSubmit diabetes))
  = [ChatMessage.mk human "What is diabetes?"] /\
  latestResponse (after (handleSubmit_settled Rejected) (after handleSubmit diabetes))
  = None.
Proof.
  destruct (submit_failure_no_rollback diabetes Rejected eq_refl eq_refl)
    as (Hh & _ & Hl & _).
  split; [exact Hh | exact Hl].
Defined.

(** C10.  A failed submission leaves the query text and the pending
    attachment as they are: neither the part of [handleSubmit] before
    the request nor its failure path calls [setQuery] or
    [setAttachedFile].  A response that was received and parsed resets
    the query to the empty string and clears the attachment. *)
Theorem failure_keeps_query_and_attachment (s : State) (r : Settled) :
  failed r = true ->
  (query (after handleSubmit s) = query s /\
   attachedFile (after handleSubmit s) = attachedFile s /\
   existsb writes_composer (calls_of handleSubmit s) = false) /\
  (query (after (handleSubmit_settled r) s) = query s /\
   attachedFile (after (handleSubmit_settled r) s) = attachedFile s /\
   existsb writes_composer (calls_of (handleSubmit_settled r) s) = false) /\
  (forall status data,
     query (after (handleSubmit_settled (ok status data)) s) = "" /\
     attachedFile (after (handleSubmit_settled (ok status data)) s) = None).
Proof.
  intros Hfail. split; [|split].
  - destruct (nothing_to_send s) eqn:E.
    + unfold after, calls_of. rewrite (handleSubmit_skips s E). done.
    + rewrite (after_handleSubmit_sends s E), (calls_handleSubmit_sends s E). done.
  - unfold after, calls_of. rewrite (handleSubmit_settled_failed r s Hfail). done.
  - intros status data. rewrite handleSubmit_settled_ok. done.
Qed.

Lemma failure_keeps_query_and_attachment_witness :
  query (after (handleSubmit_settled Rejected) with_scan) = "Is this normal?" /\
  attachedFile (after (handleSubmit_settled Rejected) with_scan)
  = Some (Attached.mk (mkFile "scan.png" "") Attached.image).
Proof.
  destruct (failure_keeps_query_and_attachment with_scan Rejected eq_refl)
    as (_ & (Hq & Ha & _) & _).
  split; [exact Hq | exact Ha].
Defined.

(** ** Admission of a submission *)

(** C4.  Submitting the form puts a request in flight only when the
    query text is non-empty or a file is attached; with empty text and no
    attachment the state (history, latest answer, attachment and query
    among it) and the requests in flight are what they were. *)
Theorem empty_submission_sends_nothing (SpeechRecognition : bool) (w : World) :
  (forall w', step SpeechRecognition w submit_form = Some w' ->
              inflight w' <> inflight w ->
              query (page w) <> "" \/ attachedFile (page w) <> None) /\
  (query (page w) = "" -> attachedFile (page w) = None ->
   exists w', step SpeechRecognition w submit_form = Some w' /\
              page w' = page w /\ inflight w' = inflight w /\
              fetches (calls_of handleSubmit (page w)) = []).
Proof.
  assert (Hskip : nothing_to_send (page w) = true ->
                  page (dispatch handleSubmit w) = page w /\
                  inflight (dispatch handleSubmit w) = inflight w /\
                  fetches (calls_of handleSubmit (page w)) = []).
  { intros E. unfold dispatch, after, calls_of; cbn [page inflight].
    rewrite (handleSubmit_skips _ E); cbn. rewrite app_nil_r. done. }
  split.
  - intros w' Hstep Hnew. cbn in Hstep.
    destruct (isLoading (page w)); [congruence|].
    injection Hstep as <-.
    destruct (query (page w)) eqn:Eq; [|left; discriminate].
    destruct (attachedFile (page w)) eqn:Ea; [right; discriminate|].
    destruct Hskip as (_ & Hin & _); [|congruence].
    apply nothing_to_send_spec. done.
  - intros Hq Ha.
    assert (E : nothing_to_send (page w) = true)
      by (apply nothing_to_send_spec; done).
    destruct (Hskip E) as (Hp & Hin & Hf). cbn.
    destruct (isLoading (page w)); eexists; done.
Qed.

Lemma empty_submission_sends_nothing_witness :
  exists w', step true (mounted) submit_form = Some w' /\
             page w' = initialState /\ inflight w' = inflight mounted.
Proof.
  destruct (proj2 (empty_submission_sends_nothing true mounted) eq_refl eq_refl)
    as (w' & Hs & Hp & Hi & _).
  exists w'. split; [exact Hs|]. split; [exact Hp | exact Hi].
Defined.

(** ** Request payload *)

(** C7.  The payload of a submission is [buildFormData] of the query and
    the attachment.  It never has both an [image] and a [document] field:
    it has an [image] field exactly when an image is attached, a
    [document] field exactly when a document is attached, and neither
    when nothing is attached. *)
Theorem no_dual_attachment (s : State) :
  let fd := buildFormData (query s) (attachedFile s) in
  fetches (calls_of handleSubmit s) =
    (if nothing_to_send s then []
     else [(in_handleSubmit, submitRequest fd)]) /\
  has fd "image" && has fd "document" = false /\
  has fd "image" =
    bool_decide (Attached.type <$> attachedFile s = Some Attached.image) /\
  has fd "document" =
    bool_decide (Attached.type <$> attachedFile s = Some Attached.doc).
Proof.
  intros fd. split.
  - destruct (nothing_to_send s) eqn:E.
    + unfold calls_of. rewrite (handleSubmit_skips s E). reflexivity.
    + rewrite (calls_handleSubmit_sends s E). reflexivity.
  - subst fd. destruct (attachedFile s) as [[f [|]]|]; cbn; done.
Qed.

(** ** The newest request *)

Lemma settle_newest (SpeechRecognition : bool) (s : State)
    (l : list (Awaiter * Request)) (k : Awaiter) (req : Request)
    (ss : list Recognition) (t : list Call) (r : Settled) :
  step SpeechRecognition
    {| page := s; inflight := l ++ [(k, req)]; sessions := ss; trace := t |}
    (settle (length l) r)
  = Some (dispatch (continuation k r)
            {| page := s; inflight := l; sessions := ss; trace := t |}).
Proof.
  cbn [step inflight page sessions trace].
  rewrite list_lookup_middle by reflexivity.
  replace (delete (length l) (l ++ [(k, req)])) with l; [reflexivity|].
  rewrite delete_middle. symmetry. apply app_nil_r.
Qed.

(** ** Hydration and clearing *)

(** C6.  When the hydrate request is answered with a history and a
    latest response, the history becomes that list exactly and
    [latestResponse] that response, whatever the state was.  When the
    request errors the handler changes nothing and only calls
    [console.error]: the page, still as mounted, keeps an empty history
    and no latest answer, and no [alert] is raised. *)
Theorem hydration (SpeechRecognition : bool) (status : nat)
    (h : list ChatMessage.t) (r : option LatestResponse) (bad : Settled) :
  failed bad = true ->
  (forall s,
     let s' := after (fetchHistory_settled (ok status (APIResponse.mk (Some h) r))) s in
     history s' = h /\ latestResponse s' = r) /\
  (forall s,
     after (fetchHistory_settled bad) s = s /\
     calls_of (fetchHistory_settled bad) s
     = [console_error_ "Failed to load history:"]) /\
  (exists w, step SpeechRecognition mounted (settle 0 bad) = Some w /\
             history (page w) = [] /\ latestResponse (page w) = None /\
             trace w = trace mounted ++ [console_error_ "Failed to load history:"]).
Proof.
  intros Hbad. split; [done|].
  assert (E : forall s, fetchHistory_settled bad s
                        = (tt, s, [console_error_ "Failed to load history:"])).
  { destruct bad as [|[st [|data]]]; try discriminate; reflexivity. }
  split; [intros s; unfold after, calls_of; rewrite E; done|].
  eexists. split; [reflexivity|].
  unfold dispatch, after, calls_of; cbn [page trace continuation].
  rewrite E. done.
Qed.

Lemma hydration_witness :
  history (after (fetchHistory_settled
                    (ok 200 (APIResponse.mk (Some two_entries) (Some seen))))
             initialState) = two_entries /\
  after (fetchHistory_settled Rejected) initialState = initialState.
Proof.
  destruct (hydration true 200 two_entries (Some seen) Rejected eq_refl)
    as (Hok & Hbad & _).
  split; [exact (proj1 (Hok initialState)) | exact (proj1 (Hbad initialState))].
Defined.

(** C5 (as amended).  Clearing issues the clear request and changes
    nothing until it settles.  When the request is fulfilled, with any
    status and any body, the history becomes empty and the latest answer
    absent; this holds from every state, one whose history is already
    empty included. *)
Theorem clear_resets_when_fulfilled (SpeechRecognition : bool) (w : World) :
  exists w1,
    step SpeechRecognition w click_clear = Some w1 /\
    page w1 = page w /\
    inflight w1 = inflight w ++ [(in_clearChat, clearRequest)] /\
    forall res : Response,
    exists w2,
      step SpeechRecognition w1 (settle (length (inflight w)) (Fulfilled res))
      = Some w2 /\
      history (page w2) = [] /\ latestResponse (page w2) = None /\
      inflight w2 = inflight w.
Proof.
  exists (dispatch clearChat w).
  split; [reflexivity|]. split; [reflexivity|]. split; [reflexivity|].
  intros res.
  change (dispatch clearChat w) with
    {| page := page w; inflight := inflight w ++ [(in_clearChat, clearRequest)];
       sessions := sessions w ++ [];
       trace := trace w ++ [fetch_ in_clearChat clearRequest] |}.
  rewrite settle_newest.
  eexists. split; [reflexivity|]. cbn. rewrite app_nil_r. done.
Qed.

(** The claim C5 as written fails when the clear request rejects: the
    [await] throws and the two resets after it never run. *)
Lemma clear_rejected_keeps_history :
  exists w,
    run true mounted
      [settle 0 (ok 200 (APIResponse.mk (Some two_entries) (Some seen)));
       click_clear; settle 0 Rejected] = Some w /\
    history (page w) = two_entries /\ history (page w) <> [] /\
    latestResponse (page w) = Some seen /\ latestResponse (page w) <> None.
Proof.
  eexists. split; [reflexivity|]. cbn. done.
Qed.

(** ** Single flight *)

Lemma length_filter_delete {A} (P : A -> Prop) `{!forall x, Decision (P x)}
    (l : list A) (i : nat) (x : A) :
  l !! i = Some x ->
  length (filter P l)
  = (if decide (P x) then 1 else 0) + length (filter P (delete i l)).
Proof.
  revert i. induction l as [|y l IH]; intros [|i] Hl; simplify_eq/=.
  - rewrite filter_cons. destruct (decide (P x)); reflexivity.
  - rewrite !filter_cons. destruct (decide (P y)); cbn; rewrite (IH i Hl); lia.
Qed.

Lemma dispatch_bystander (m : M unit) (w : World) :
  bystander m -> single_flight w -> single_flight (dispatch m w).
Proof.
  unfold single_flight, submissions_in_flight, dispatch; cbn. intros Hm Hw.
  destruct (Hm (page w)) as [-> Hf].
  rewrite filter_app, length_app, Hf, Hw; cbn. lia.
Qed.

Lemma bystander_handlers (SpeechRecognition : bool) :
  (forall r, bystander (fetchHistory_settled r)) /\
  (forall r, bystander (clearChat_settled r)) /\
  bystander clearChat /\
  (forall v, bystander (onChange_query v)) /\
  (forall v, bystander (onChange_lang v)) /\
  (forall k fs, bystander (onChange_file k fs)) /\
  bystander onClick_plus /\
  (forall k, bystander (onClick_upload k)) /\
  bystander (toggleVoice SpeechRecognition) /\
  bystander onstart /\ bystander onend /\
  (forall ev, bystander (onresult ev)).
Proof.
  repeat split; try done.
  all: try (destruct r as [|[st [|data]]]; done).
  all: try (unfold onChange_file; destruct (fs !! 0); done).
  all: try (unfold toggleVoice; destruct SpeechRecognition; run_handler;
            try done; destruct (isListening s); done).
  all: unfold onresult; destruct (results ev !! 0) as [r0|]; try done;
       destruct (r0 !! 0); done.
Qed.

Lemma step_single_flight (SpeechRecognition : bool) (w w' : World) (e : Event) :
  step SpeechRecognition w e = Some w' -> single_flight w -> single_flight w'.
Proof.
  destruct (bystander_handlers SpeechRecognition)
    as (Hh & Hcs & Hc & Hq & Hl & Hf & Hp & Hu & Hv & Hs & He & Hr).
  intros Hstep Hw. destruct e; cbn [step] in Hstep.
  - (* a request settles *)
    destruct (inflight w !! i) as [[k req]|] eqn:Ei; [|discriminate].
    injection Hstep as <-.
    pose proof (length_filter_delete is_submission _ _ _ Ei) as Hdel.
    unfold single_flight, submissions_in_flight in Hw. rewrite Hw in Hdel.
    destruct (decide (is_submission (k, req))) as [Hk|Hk];
      unfold is_submission in Hk; cbn in Hk; destruct k; try congruence.
    + (* the submission: it was the only one, and [finally] clears the flag *)
      unfold single_flight, submissions_in_flight, dispatch; cbn [page inflight continuation].
      assert (Hflag : isLoading (after (handleSubmit_settled r) (page w)) = false
                      /\ fetches (calls_of (handleSubmit_settled r) (page w)) = []).
      { destruct r as [|[st [|[[h|] [l|]]]]]; done. }
      destruct Hflag as [-> ->]. rewrite app_nil_r.
      destruct (isLoading (page w)); lia.
    + apply dispatch_bystander; [apply Hh|].
      unfold single_flight, submissions_in_flight; cbn. lia.
    + apply dispatch_bystander; [apply Hcs|].
      unfold single_flight, submissions_in_flight; cbn. lia.
  - injection Hstep as <-. apply dispatch_bystander; auto.
  - injection Hstep as <-. apply dispatch_bystander; auto.
  - injection Hstep as <-. apply dispatch_bystander; auto.
  - injection Hstep as <-. apply dispatch_bystander; auto.
  - destruct (showUploadMenu (page w)); [|discriminate].
    injection Hstep as <-. apply dispatch_bystander; auto.
  - injection Hstep as <-. apply dispatch_bystander; auto.
  - destruct (sessions w !! i); [|discriminate].
    injection Hstep as <-. apply dispatch_bystander; auto.
  - destruct (sessions w !! i); [|discriminate].
    injection Hstep as <-. apply dispatch_bystander; auto.
  - destruct (sessions w !! i); [|discriminate].
    injection Hstep as <-. apply dispatch_bystander; auto.
  - (* the form is submitted *)
    destruct (isLoading (page w)) eqn:El; injection Hstep as <-; [exact Hw|].
    unfold single_flight, submissions_in_flight in *. rewrite El in Hw.
    unfold dispatch; cbn [page inflight].
    destruct (nothing_to_send (page w)) eqn:E.
    + unfold after, calls_of. rewrite (handleSubmit_skips _ E); cbn.
      rewrite app_nil_r, El. exact Hw.
    + rewrite (after_handleSubmit_sends _ E), (calls_handleSubmit_sends _ E); cbn.
      rewrite filter_app, length_app, Hw. reflexivity.
  - injection Hstep as <-. apply dispatch_bystander; auto.
Qed.

Lemma run_single_flight (SpeechRecognition : bool) (es : list Event) (w w' : World) :
  run SpeechRecognition w es = Some w' -> single_flight w -> single_flight w'.
Proof.
  revert w. induction es as [|e es IH]; intros w Hrun Hw; cbn in Hrun.
  - injection Hrun as <-. exact Hw.
  - destruct (step SpeechRecognition w e) as [w1|] eqn:E; [|discriminate].
    eauto using step_single_flight.
Qed.

(** C2.  In every reachable world at most one submission is in flight,
    [isLoading] is true exactly when one is, and while it is true an
    attempt to submit the form is turned away: the world, and with it
    the set of requests in flight, stays as it is. *)
Theorem single_flight_guard (SpeechRecognition : bool) (w : World) :
  reachable SpeechRecognition w ->
  submissions_in_flight w <= 1 /\
  (isLoading (page w) = true <-> submissions_in_flight w = 1) /\
  (submissions_in_flight w = 1 ->
   step SpeechRecognition w submit_form = Some w).
Proof.
  intros [es Hrun].
  assert (Hw : single_flight w).
  { apply (run_single_flight _ _ _ _ Hrun). reflexivity. }
  unfold single_flight in Hw. rewrite Hw. cbn [step].
  destruct (isLoading (page w)); repeat split; (lia || done).
Qed.

Lemma single_flight_guard_witness :
  exists w, run true mounted asking = Some w /\
            submissions_in_flight w = 1 /\
            run true w [submit_form; submit_form] = Some w.
Proof.
  eexists. split; [reflexivity|].
  match goal with |- submissions_in_flight ?w = 1 /\ _ =>
    destruct (single_flight_guard true w (ex_intro _ asking eq_refl))
      as (_ & Hiff & Hgate);
    assert (H1 : submissions_in_flight w = 1) by (apply Hiff; reflexivity);
    split; [exact H1|]; cbn [run]; rewrite (Hgate H1); rewrite (Hgate H1);
    reflexivity
  end.
Defined.

(** ** Speech input *)

Lemma dispatch_silent (m : M unit) (w : World) :
  silent m -> deaf w -> deaf (dispatch m w).
Proof.
  unfold deaf, dispatch; cbn. intros Hm [Hl Hs].
  destruct (Hm (page w)) as [-> ->]. rewrite Hs. done.
Qed.

Lemma silent_handlers :
  (forall r, silent (fetchHistory_settled r)) /\
  (forall r, silent (handleSubmit_settled r)) /\
  (forall r, silent (clearChat_settled r)) /\
  silent clearChat /\ silent handleSubmit /\
  (forall v, silent (onChange_query v)) /\
  (forall v, silent (onChange_lang v)) /\
  (forall k fs, silent (onChange_file k fs)) /\
  silent onClick_plus /\
  (forall k, silent (onClick_upload k)) /\
  silent (toggleVoice false) /\
  (forall ev, silent (onresult ev)).
Proof.
  repeat split; try done.
  all: try (destruct r as [|[st [|[[h|] [l|]]]]]; done).
  all: try (unfold onChange_file; destruct (fs !! 0); done).
  all: try (unfold onresult; destruct (results ev !! 0) as [r0|]; try done;
            destruct (r0 !! 0); done).
  all: destruct (nothing_to_send s) eqn:E;
    [ unfold after, calls_of; rewrite (handleSubmit_skips s E)
    | rewrite ?(after_handleSubmit_sends s E), ?(calls_handleSubmit_sends s E) ];
    done.
Qed.

Lemma step_deaf (w w' : World) (e : Event) :
  step false w e = Some w' -> deaf w -> deaf w'.
Proof.
  destruct silent_handlers
    as (Hh & Hss & Hcs & Hc & Hsub & Hq & Hl & Hf & Hp & Hu & Hv & Hr).
  intros Hstep Hw. pose proof Hw as [_ Hnone].
  destruct e; cbn [step] in Hstep; rewrite ?Hnone in Hstep;
    try discriminate.
  - destruct (inflight w !! i) as [[k req]|]; [|discriminate].
    injection Hstep as <-.
    apply dispatch_silent; [destruct k; cbn; auto | split; [apply Hw | done]].
  - injection Hstep as <-. apply dispatch_silent; auto.
  - injection Hstep as <-. apply dispatch_silent; auto.
  - injection Hstep as <-. apply dispatch_silent; auto.
  - injection Hstep as <-. apply dispatch_silent; auto.
  - destruct (showUploadMenu (page w)); [|discriminate].
    injection Hstep as <-. apply dispatch_silent; auto.
  - injection Hstep as <-. apply dispatch_silent; auto.
  - destruct (isLoading (page w)); injection Hstep as <-; [exact Hw|].
    apply dispatch_silent; auto.
  - injection Hstep as <-. apply dispatch_silent; auto.
Qed.

Lemma run_deaf (es : list Event) (w w' : World) :
  run false w es = Some w' -> deaf w -> deaf w'.
Proof.
  revert w. induction es as [|e es IH]; intros w Hrun Hw; cbn in Hrun.
  - injection Hrun as <-. exact Hw.
  - destruct (step false w e) as [w1|] eqn:E; [|discriminate].
    eauto using step_deaf.
Qed.

(** C8.  On a host without speech recognition the page never listens,
    and a request to start listening only raises the [alert]: the state,
    [isListening = false] included, is unchanged, no recognition is
    started and no request is sent. *)
Theorem speech_capability_unavailable (w : World) :
  reachable false w ->
  isListening (page w) = false /\
  exists w',
    step false w click_voice = Some w' /\
    trace w' = trace w ++ [alert_ "Browser does not support speech recognition."] /\
    page w' = page w /\ isListening (page w') = false /\
    sessions w' = [] /\ inflight w' = inflight w.
Proof.
  intros [es Hrun].
  assert (Hw : deaf w) by (apply (run_deaf _ _ _ Hrun); done).
  destruct Hw as [Hl Hs]. split; [exact Hl|].
  eexists. split; [reflexivity|]. cbn.
  rewrite Hs, Hl, !app_nil_r. done.
Qed.

Lemma speech_capability_unavailable_witness :
  exists w',
    step false mounted click_voice = Some w' /\
    trace w' = trace mounted ++ [alert_ "Browser does not support speech recognition."] /\
    isListening (page w') = false.
Proof.
  destruct (speech_capability_unavailable mounted (ex_intro _ [] eq_refl))
    as (_ & w' & Hs & Ht & _ & Hl & _).
  exists w'. split; [exact Hs|]. split; [exact Ht | exact Hl].
Defined.

(** The page over the callbacks [onstart], one [onresult] with a first
    alternative, [onend] of one recognition. *)
Lemma run_one_result (SpeechRecognition : bool) (w : World)
    (i : nat) (ev : ResultEvent) (r0 : list Alternative) (alt : Alternative) :
  is_Some (sessions w !! i) ->
  results ev !! 0 = Some r0 -> r0 !! 0 = Some alt ->
  exists w',
    run SpeechRecognition w [rec_onstart i; rec_onresult i ev; rec_onend i]
    = Some w' /\
    query (page w') = transcript alt /\
    query_writes (trace w') = query_writes (trace w) ++ [transcript alt] /\
    isListening (page w') = false /\
    sessions w' = delete i (sessions w).
Proof.
  intros [rcg Hi] H0 H00.
  assert (Er : onresult ev = setQuery (transcript alt))
    by (unfold onresult; rewrite H0, H00; reflexivity).
  set (w1 := dispatch onstart w).
  set (w2 := dispatch (setQuery (transcript alt)) w1).
  assert (S1 : sessions w1 = sessions w) by apply app_nil_r.
  assert (S2 : sessions w2 = sessions w)
    by (unfold w2, dispatch; cbn; rewrite app_nil_r; exact S1).
  assert (E1 : step SpeechRecognition w (rec_onstart i) = Some w1)
    by (cbn [step]; rewrite Hi; reflexivity).
  assert (E2 : step SpeechRecognition w1 (rec_onresult i ev) = Some w2)
    by (cbn [step]; rewrite S1, Hi, Er; reflexivity).
  eexists. split.
  - cbn [run]. rewrite E1, E2. cbn [step]. rewrite S2, Hi. reflexivity.
  - cbn. rewrite !app_nil_r. unfold query_writes.
    rewrite <- !app_assoc, omap_app. done.
Qed.

(** * Further properties of the page *)

(** ** The attachment slot *)

Lemma choose_frame (s : State) (c : Attached.Kind * list File) :
  history (choose s c) = history s /\
  latestResponse (choose s c) = latestResponse s /\
  query (choose s c) = query s /\
  isLoading (choose s c) = isLoading s.
Proof.
  destruct c as [k fs]. unfold choose, onChange_file; cbn.
  destruct (fs !! 0); done.
Qed.

Lemma chooseAll_frame (cs : list (Attached.Kind * list File)) (s : State) :
  history (chooseAll s cs) = history s /\
  latestResponse (chooseAll s cs) = latestResponse s /\
  query (chooseAll s cs) = query s /\
  isLoading (chooseAll s cs) = isLoading s.
Proof.
  revert s. induction cs as [|c cs IH]; intros s; [done|].
  unfold chooseAll in *; cbn.
  destruct (IH (choose s c)) as (-> & -> & -> & ->). apply choose_frame.
Qed.

(** X1.  The attachment slot holds the file chosen last: after any
    sequence of file dialogs, a dialog that returns at least one file
    leaves its first file, under the kind of the input it came from, as
    the attachment, whatever was attached before; a dialog that returns
    no file leaves the state as it is.  No dialog touches the session,
    the query or the loading flag. *)
Theorem last_chosen_file_wins (s : State)
    (cs : list (Attached.Kind * list File)) (k : Attached.Kind)
    (f : File) (fs : list File) :
  attachedFile (chooseAll s (cs ++ [(k, f :: fs)])) = Some (Attached.mk f k) /\
  chooseAll s (cs ++ [(k, [])]) = chooseAll s cs /\
  history (chooseAll s cs) = history s /\
  latestResponse (chooseAll s cs) = latestResponse s /\
  query (chooseAll s cs) = query s /\
  isLoading (chooseAll s cs) = isLoading s.
Proof.
  unfold chooseAll. rewrite !fold_left_app. cbn.
  split; [reflexivity|]. split; [|apply chooseAll_frame].
  unfold choose; cbn. reflexivity.
Qed.

(** ** Submissions at the edges *)

(** X2.  A submission with a file and no text is sent: the Human entry
    appended to the history has empty content, and the payload is the
    empty [query] field followed by the file alone, under [image] or
    [document] by its kind. *)
Theorem attachment_only_submission (s : State) (a : Attached.t) :
  query s = "" -> attachedFile s = Some a ->
  history (after handleSubmit s) = history s ++ [ChatMessage.mk human ""] /\
  isLoading (after handleSubmit s) = true /\
  fetches (calls_of handleSubmit s) =
    [(in_handleSubmit,
      submitRequest
        [("query", FText "");
         (match Attached.type a with
          | Attached.image => "image"
          | Attached.doc => "document"
          end, FBlob (Attached.file a))])].
Proof.
  intros Hq Ha.
  assert (Hsend : nothing_to_send s = false).
  { destruct (nothing_to_send s) eqn:E; [|done].
    apply nothing_to_send_spec in E as [_ E]. congruence. }
  rewrite (after_handleSubmit_sends s Hsend), (calls_handleSubmit_sends s Hsend).
  rewrite Hq, Ha. destruct a as [f [|]]; done.
Qed.

Lemma attachment_only_submission_witness :
  history (after handleSubmit pdf_only) = [ChatMessage.mk human ""].
Proof.
  exact (proj1 (attachment_only_submission pdf_only
                  (Attached.mk (mkFile "policy.pdf" "") Attached.doc)
                  eq_refl eq_refl)).
Defined.

(** X3.  A response that parses and carries no history (an error object,
    say, under any status) still counts as success: the optimistic entry
    stays last in the history, and the query and the attachment are
    cleared as after any parsed response. *)
Theorem response_without_history (s : State) (status : nat) (data : APIResponse.t) :
  nothing_to_send s = false -> APIResponse.history data = None ->
  let s2 := after (handleSubmit_settled (ok status data)) (after handleSubmit s) in
  history s2 = history s ++ [ChatMessage.mk human (query s)] /\
  query s2 = "" /\ attachedFile s2 = None /\ isLoading s2 = false.
Proof.
  intros Hsend Hh s2. subst s2.
  rewrite handleSubmit_settled_ok, (after_handleSubmit_sends s Hsend); cbn.
  rewrite Hh. done.
Qed.

Lemma response_without_history_witness :
  history (after (handleSubmit_settled (ok 500 (APIResponse.mk None None)))
             (after handleSubmit diabetes))
  = [ChatMessage.mk human "What is diabetes?"].
Proof.
  exact (proj1 (response_without_history diabetes 500 (APIResponse.mk None None)
                  eq_refl eq_refl)).
Defined.

(** X4.  Submitting again after a failure sends the same payload and
    appends a second copy of the Human entry: the first one was never
    taken back. *)
Theorem retry_after_failure_duplicates (s : State) (r : Settled) :
  nothing_to_send s = false -> failed r = true ->
  let s2 := after (handleSubmit_settled r) (after handleSubmit s) in
  fetches (calls_of handleSubmit s2) = fetches (calls_of handleSubmit s) /\
  history (after handleSubmit s2)
  = history s ++ [ChatMessage.mk human (query s); ChatMessage.mk human (query s)].
Proof.
  intros Hsend Hfail s2.
  assert (E2 : s2 = {| history := history s ++ [ChatMessage.mk human (query s)];
                       latestResponse := latestResponse s; query := query s;
                       isLoading := false; showUploadMenu := showUploadMenu s;
                       attachedFile := attachedFile s;
                       isListening := isListening s; lang := lang s |}).
  { subst s2. unfold after at 1.
    rewrite (handleSubmit_settled_failed r _ Hfail).
    rewrite (after_handleSubmit_sends s Hsend). reflexivity. }
  assert (Hsend2 : nothing_to_send s2 = false) by (rewrite E2; exact Hsend).
  rewrite (after_handleSubmit_sends s2 Hsend2).
  rewrite (calls_handleSubmit_sends s2 Hsend2), (calls_handleSubmit_sends s Hsend).
  rewrite E2; cbn. rewrite <- app_assoc. done.
Qed.

Lemma retry_after_failure_duplicates_witness :
  history (after handleSubmit
             (after (handleSubmit_settled Rejected) (after handleSubmit diabetes)))
  = [ChatMessage.mk human "What is diabetes?";
     ChatMessage.mk human "What is diabetes?"].
Proof.
  exact (proj2 (retry_after_failure_duplicates diabetes Rejected eq_refl eq_refl)).
Defined.

(** ** Settlements out of order *)

(** X5.  A clear and a submission that are both in flight do not
    commute.  When the clear is fulfilled first, the submission's
    response then puts the server's history and latest answer back; when
    the submission is answered first, the clear empties both.  Either
    way the query and the attachment end up cleared and the loading flag
    down. *)
Theorem clear_and_submit_do_not_commute (s : State) (res : Response)
    (status : nat) (h : list ChatMessage.t) (l : LatestResponse) :
  let answered := handleSubmit_settled (ok status (APIResponse.mk (Some h) (Some l))) in
  let cleared := clearChat_settled (Fulfilled res) in
  history (after answered (after cleared s)) = h /\
  latestResponse (after answered (after cleared s)) = Some l /\
  history (after cleared (after answered s)) = [] /\
  latestResponse (after cleared (after answered s)) = None /\
  query (after answered (after cleared s)) = "" /\
  query (after cleared (after answered s)) = "" /\
  isLoading (after answered (after cleared s)) = false /\
  isLoading (after cleared (after answered s)) = false.
Proof. done. Qed.

(** X6.  Hydration takes the session from the response alone: the
    history is the response's, or empty when the response has none, and
    the latest answer is the response's even when that is absent, so a
    response that arrives after an optimistic entry removes it.  The
    query, the attachment and the loading flag are not touched. *)
Theorem hydration_overwrites_session (s : State) (status : nat) (data : APIResponse.t) :
  let s' := after (fetchHistory_settled (ok status data)) s in
  history s' = default [] (APIResponse.history data) /\
  latestResponse s' = APIResponse.latest_response data /\
  query s' = query s /\ attachedFile s' = attachedFile s /\
  isLoading s' = isLoading s /\
  (APIResponse.history data = None ->
   history (after (fetchHistory_settled (ok status data)) (after handleSubmit s)) = []).
Proof.
  destruct data as [h l]; cbn. repeat split. intros ->. reflexivity.
Qed.

Lemma hydration_overwrites_session_witness :
  history (after (fetchHistory_settled (ok 200 (APIResponse.mk None None)))
             (after handleSubmit diabetes)) = [].
Proof.
  destruct (hydration_overwrites_session diabetes 200 (APIResponse.mk None None))
    as (_ & _ & _ & _ & _ & H).
  exact (H eq_refl).
Defined.

(** ** Facts about every step *)

Lemma step_cases (SpeechRecognition : bool) (w w' : World) (e : Event) :
  step SpeechRecognition w e = Some w' ->
  w' = w \/
  exists m w0, handler SpeechRecognition m /\ w' = dispatch m w0 /\
               page w0 = page w /\ trace w0 = trace w.
Proof.
  intros Hstep.
  assert (Hd : forall m w0, handler SpeechRecognition m ->
                 page w0 = page w -> trace w0 = trace w ->
                 Some (dispatch m w0) = Some w' ->
                 w' = w \/
                 exists m w0, handler SpeechRecognition m /\ w' = dispatch m w0 /\
                              page w0 = page w /\ trace w0 = trace w).
  { intros m w0 Hm Hp Ht [= <-]. right. exists m, w0. done. }
  destruct e; cbn [step] in Hstep.
  - destruct (inflight w !! i) as [[k req]|]; [|discriminate].
    eapply Hd; [apply (handler_settled _ k r) | | | exact Hstep]; reflexivity.
  - eapply Hd; [apply handler_query | | | exact Hstep]; reflexivity.
  - eapply Hd; [apply handler_lang | | | exact Hstep]; reflexivity.
  - eapply Hd; [apply handler_file | | | exact Hstep]; reflexivity.
  - eapply Hd; [apply handler_plus | | | exact Hstep]; reflexivity.
  - destruct (showUploadMenu (page w)); [|discriminate].
    eapply Hd; [apply handler_upload | | | exact Hstep]; reflexivity.
  - eapply Hd; [apply handler_voice | | | exact Hstep]; reflexivity.
  - destruct (sessions w !! i); [|discriminate].
    eapply Hd; [apply handler_onstart | | | exact Hstep]; reflexivity.
  - destruct (sessions w !! i); [|discriminate].
    eapply Hd; [apply handler_onresult | | | exact Hstep]; reflexivity.
  - destruct (sessions w !! i); [|discriminate].
    eapply Hd; [apply handler_onend | | | exact Hstep]; reflexivity.
  - destruct (isLoading (page w)); [left; congruence|].
    eapply Hd; [apply handler_submit | | | exact Hstep]; reflexivity.
  - eapply Hd; [apply handler_clear | | | exact Hstep]; reflexivity.
Qed.

Lemma run_invariant (SpeechRecognition : bool) (P : World -> Prop) :
  (forall w e w', step SpeechRecognition w e = Some w' -> P w -> P w') ->
  forall es w w', run SpeechRecognition w es = Some w' -> P w -> P w'.
Proof.
  intros Hstep es. induction es as [|e es IH]; intros w w' Hrun Hw; cbn in Hrun.
  - injection Hrun as <-. exact Hw.
  - destruct (step SpeechRecognition w e) as [w1|] eqn:E; [|discriminate].
    eauto.
Qed.

Lemma nothing_to_send_false (s : State) :
  nothing_to_send s = false -> query s <> "" \/ attachedFile s <> None.
Proof.
  intros E. destruct (query s) eqn:Eq; [|left; discriminate].
  destruct (attachedFile s) eqn:Ea; [right; discriminate|].
  assert (nothing_to_send s = true); [|congruence].
  apply nothing_to_send_spec. done.
Qed.

Lemma handler_calls_expected (SpeechRecognition : bool) (m : M unit) (s : State) :
  handler SpeechRecognition m ->
  Forall (expected SpeechRecognition) (calls_of m s).
Proof.
  intros Hm. destruct Hm.
  - destruct k, r as [|[st [|[[h|] [l|]]]]]; cbn; repeat constructor.
  - repeat constructor.
  - repeat constructor.
  - unfold onChange_file. destruct (fs !! 0); repeat constructor.
  - repeat constructor.
  - repeat constructor.
  - unfold toggleVoice. destruct SpeechRecognition; cbn.
    + unfold calls_of; cbn. destruct (isListening s); cbn; repeat constructor.
    + repeat constructor.
  - repeat constructor.
  - unfold onresult. destruct (results ev !! 0) as [r0|]; [|repeat constructor].
    destruct (r0 !! 0); repeat constructor.
  - repeat constructor.
  - destruct (nothing_to_send s) eqn:E.
    + unfold calls_of. rewrite (handleSubmit_skips s E). repeat constructor.
    + rewrite (calls_handleSubmit_sends s E). repeat constructor.
      cbn. eexists _, _. split; [reflexivity|].
      apply nothing_to_send_false, E.
  - repeat constructor.
Qed.

(** ** What the page never does *)

(** X7.  Whatever the user does and however requests settle, the page
    only ever makes the calls it is meant to: a request is the hydrate
    GET, the clear POST or a submission POST whose payload was built from
    a non-empty query or an attachment; the alert appears on a host
    without speech recognition only, and a recognition is started on a
    host with it only, asking for final results and one alternative. *)
Theorem only_expected_calls (SpeechRecognition : bool) (w : World) :
  reachable SpeechRecognition w ->
  Forall (expected SpeechRecognition) (trace w).
Proof.
  intros [es Hrun].
  apply (run_invariant SpeechRecognition
           (fun w => Forall (expected SpeechRecognition) (trace w))
         ) with (es := es) (w := mounted); [|exact Hrun|].
  - intros w0 e w1 Hstep Hw0.
    destruct (step_cases _ _ _ _ Hstep) as [->|(m & w2 & Hm & -> & Hp & Ht)];
      [exact Hw0|].
    unfold dispatch; cbn [trace]. rewrite Ht. apply Forall_app. split; [exact Hw0|].
    apply handler_calls_expected, Hm.
  - repeat constructor.
Qed.

Lemma only_expected_calls_witness :
  exists w, run true mounted asking = Some w /\ Forall (expected true) (trace w).
Proof.
  eexists. split; [reflexivity|].
  apply only_expected_calls. exists asking. reflexivity.
Defined.

(** X8.  The page is never left loading with nothing to wait for: in
    every reachable world where [isLoading] is set, a submission is in
    flight, and however it settles the flag goes down and no submission
    remains in flight. *)
Theorem never_stuck_loading (SpeechRecognition : bool) (w : World) :
  reachable SpeechRecognition w -> isLoading (page w) = true ->
  exists i req,
    inflight w !! i = Some (in_handleSubmit, req) /\
    forall r, exists w',
      step SpeechRecognition w (settle i r) = Some w' /\
      isLoading (page w') = false /\ submissions_in_flight w' = 0.
Proof.
  intros [es Hrun] Hl.
  assert (Hw : single_flight w).
  { apply (run_single_flight _ _ _ _ Hrun). reflexivity. }
  pose proof Hw as Hn. unfold single_flight, submissions_in_flight in Hn.
  rewrite Hl in Hn.
  destruct (filter is_submission (inflight w)) as [|[k req] rest] eqn:Ef;
    [discriminate|].
  assert (Hin : (k, req) ∈ filter is_submission (inflight w))
    by (rewrite Ef; left).
  apply list_elem_of_filter in Hin as [Hk Hin]. unfold is_submission in Hk.
  cbn in Hk. subst k.
  apply list_elem_of_lookup in Hin as [i Hi].
  exists i, req. split; [exact Hi|]. intros r.
  destruct (step SpeechRecognition w (settle i r)) as [w'|] eqn:Hstep.
  - exists w'. split; [reflexivity|].
    pose proof (step_single_flight _ _ _ _ Hstep Hw) as Hw'.
    assert (Hdown : isLoading (page w') = false).
    { cbn [step] in Hstep. rewrite Hi in Hstep. injection Hstep as <-.
      destruct r as [|[st [|[[h|] [l|]]]]]; reflexivity. }
    unfold single_flight in Hw'. rewrite Hdown in Hw'. done.
  - cbn [step] in Hstep. rewrite Hi in Hstep. discriminate.
Qed.

Lemma never_stuck_loading_witness :
  exists w, run true mounted asking = Some w /\
  exists i req,
    inflight w !! i = Some (in_handleSubmit, req) /\
    forall r, exists w',
      step true w (settle i r) = Some w' /\
      isLoading (page w') = false /\ submissions_in_flight w' = 0.
Proof.
  eexists. split; [reflexivity|].
  apply never_stuck_loading; [exists asking; reflexivity | reflexivity].
Defined.

(** X9.  Between settlements the session only grows: an event other
    than a settlement leaves the latest answer as it is and leaves the
    history as it is, except that submitting the form may add one Human
    entry carrying the query at its end.  Nothing local removes or
    reorders an entry. *)
Theorem local_events_only_append (SpeechRecognition : bool)
    (w w' : World) (e : Event) :
  step SpeechRecognition w e = Some w' -> local e = true ->
  latestResponse (page w') = latestResponse (page w) /\
  (history (page w') = history (page w) \/
   e = submit_form /\
   history (page w')
   = history (page w) ++ [ChatMessage.mk human (query (page w))]).
Proof.
  intros Hstep Hlocal. destruct e; try discriminate; cbn [step] in Hstep.
  - injection Hstep as <-. split; [|left]; reflexivity.
  - injection Hstep as <-. split; [|left]; reflexivity.
  - injection Hstep as <-. cbn. unfold after, onChange_file.
    destruct (files !! 0); split; (reflexivity || left; reflexivity).
  - injection Hstep as <-. split; [|left]; reflexivity.
  - destruct (showUploadMenu (page w)); [|discriminate].
    injection Hstep as <-. split; [|left]; reflexivity.
  - injection Hstep as <-. cbn. unfold after, toggleVoice.
    destruct SpeechRecognition; cbn; [|split; [|left]; reflexivity].
    destruct (isListening (page w)); split; (reflexivity || left; reflexivity).
  - destruct (sessions w !! i); [|discriminate].
    injection Hstep as <-. split; [|left]; reflexivity.
  - destruct (sessions w !! i); [|discriminate].
    injection Hstep as <-. cbn. unfold after, onresult.
    destruct (results event !! 0) as [r0|]; [|split; [|left]; reflexivity].
    destruct (r0 !! 0); split; (reflexivity || left; reflexivity).
  - destruct (sessions w !! i); [|discriminate].
    injection Hstep as <-. split; [|left]; reflexivity.
  - destruct (isLoading (page w)); injection Hstep as <-;
      [split; [|left]; reflexivity|].
    cbn [dispatch page]. destruct (nothing_to_send (page w)) eqn:E.
    + unfold after. rewrite (handleSubmit_skips _ E). split; [|left]; reflexivity.
    + rewrite (after_handleSubmit_sends _ E). split; [reflexivity|].
      right. split; reflexivity.
  - injection Hstep as <-. split; [|left]; reflexivity.
Qed.

Lemma local_events_only_append_witness :
  exists w', step true (dispatch (onChange_query "What is diabetes?") mounted)
               submit_form = Some w' /\
             latestResponse (page w') = None.
Proof.
  exists (dispatch handleSubmit
            (dispatch (onChange_query "What is diabetes?") mounted)).
  split; [reflexivity|].
  exact (proj1 (local_events_only_append true
                  (dispatch (onChange_query "What is diabetes?") mounted)
                  _ submit_form eq_refl eq_refl)).
Defined.

(** ** Speech input, further *)

Lemma dispatch_eq (m : M unit) (w : World) (s' : State) (cs : list Call) :
  m (page w) = (tt, s', cs) ->
  dispatch m w =
    {| page := s'; inflight := inflight w ++ fetches cs;
       sessions := sessions w ++ starts cs; trace := trace w ++ cs |}.
Proof. intros E. unfold dispatch, after, calls_of. rewrite E. reflexivity. Qed.

Lemma toggleVoice_listening (s : State) :
  isListening s = true ->
  toggleVoice true s
  = (tt,
     {| history := history s; latestResponse := latestResponse s;
        query := query s; isLoading := isLoading s;
        showUploadMenu := showUploadMenu s; attachedFile := attachedFile s;
        isListening := false; lang := lang s |},
     [setIsListening_ false]).
Proof.
  intros E. unfold toggleVoice, bind, read; cbn. rewrite E. reflexivity.
Qed.

Lemma toggleVoice_idle (s : State) :
  isListening s = false ->
  toggleVoice true s
  = (tt, s,
     [recognition_start_
        {| rec_lang := lang s; interimResults := false; maxAlternatives := 1 |}]).
Proof.
  intros E. unfold toggleVoice, bind, read; cbn. rewrite E. reflexivity.
Qed.

(** X10.  A stop request does not stop the engine: while listening, the
    voice button only lowers [isListening]; every recognition stays
    started, and a result it delivers afterwards still replaces the
    query, with the page showing that it is not listening. *)
Theorem stop_request_leaves_engine_running (w : World) (i : nat)
    (rcg : Recognition) (ev : ResultEvent) (r0 : list Alternative)
    (alt : Alternative) :
  isListening (page w) = true -> sessions w !! i = Some rcg ->
  results ev !! 0 = Some r0 -> r0 !! 0 = Some alt ->
  exists w1 w2,
    step true w click_voice = Some w1 /\
    isListening (page w1) = false /\ sessions w1 = sessions w /\
    trace w1 = trace w ++ [setIsListening_ false] /\
    step true w1 (rec_onresult i ev) = Some w2 /\
    query (page w2) = transcript alt /\ isListening (page w2) = false.
Proof.
  intros Hl Hi H0 H00.
  assert (Er : onresult ev = setQuery (transcript alt))
    by (unfold onresult; rewrite H0, H00; reflexivity).
  eexists _, _. split; [reflexivity|].
  rewrite (dispatch_eq _ _ _ _ (toggleVoice_listening _ Hl)). cbn.
  rewrite app_nil_r, Hi, Er. done.
Qed.

Lemma stop_request_leaves_engine_running_witness :
  exists w w1 w2,
    run true mounted listening = Some w /\
    step true w click_voice = Some w1 /\
    step true w1 (rec_onresult 0 (mkResultEvent [[mkAlt "late words" 80]]))
    = Some w2 /\
    query (page w2) = "late words" /\ isListening (page w2) = false.
Proof.
  exists (dispatch onstart (dispatch (toggleVoice true) mounted)).
  destruct (stop_request_leaves_engine_running
              (dispatch onstart (dispatch (toggleVoice true) mounted)) 0
              {| rec_lang := "en-US"; interimResults := false; maxAlternatives := 1 |}
              (mkResultEvent [[mkAlt "late words" 80]])
              [mkAlt "late words" 80] (mkAlt "late words" 80)
              eq_refl eq_refl eq_refl eq_refl)
    as (w1 & w2 & H1 & _ & _ & _ & H2 & Hq & Hl).
  exists w1, w2. split; [reflexivity|]. done.
Defined.

(** X11.  The language of a recognition is the one selected when it was
    started.  On an idle page the voice button starts one recognition in
    the current language, asking for final results and one alternative,
    and changes no state ([isListening] waits for [onstart]); selecting
    another language afterwards changes [lang] and leaves the started
    recognition as it is. *)
Theorem recognition_language_fixed_at_start (w : World) (v : string) :
  isListening (page w) = false ->
  exists w1 w2,
    step true w click_voice = Some w1 /\
    page w1 = page w /\
    sessions w1
    = sessions w ++ [{| rec_lang := lang (page w); interimResults := false;
                        maxAlternatives := 1 |}] /\
    step true w1 (select_lang v) = Some w2 /\
    sessions w2 = sessions w1 /\ lang (page w2) = v.
Proof.
  intros Hl. eexists _, _. split; [reflexivity|].
  rewrite (dispatch_eq _ _ _ _ (toggleVoice_idle _ Hl)). cbn.
  split; [reflexivity|]. split; [reflexivity|]. split; [reflexivity|].
  cbn. rewrite app_nil_r. done.
Qed.

Lemma recognition_language_fixed_at_start_witness :
  exists w1 w2,
    step true mounted click_voice = Some w1 /\
    step true w1 (select_lang "ms-MY") = Some w2 /\
    sessions w2 = [{| rec_lang := "en-US"; interimResults := false;
                      maxAlternatives := 1 |}] /\
    lang (page w2) = "ms-MY".
Proof.
  destruct (recognition_language_fixed_at_start mounted "ms-MY" eq_refl)
    as (w1 & w2 & H1 & _ & Hs1 & H2 & Hs2 & Hv).
  exists w1, w2. split; [exact H1|]. split; [exact H2|].
  split; [rewrite Hs2; exact Hs1 | exact Hv].
Defined.

(** X12.  A result event without a first alternative (no result, or a
    first result that is empty) makes the handler throw before it
    reaches [setQuery]: the state, the query in it, is unchanged. *)
Theorem result_without_alternative (ev : ResultEvent) (s : State) :
  results ev = [] \/ results ev !! 0 = Some [] ->
  after (onresult ev) s = s /\
  calls_of (onresult ev) s = [uncaught_ "TypeError"].
Proof.
  unfold onresult. intros [-> | ->]; done.
Qed.

Lemma result_without_alternative_witness :
  after (onresult (mkResultEvent [])) diabetes = diabetes.
Proof.
  exact (proj1 (result_without_alternative (mkResultEvent []) diabetes
                  (or_introl eq_refl))).
Defined.

(** ** The upload menu *)



(** ** A whole conversation *)

(** X14.  Asking and then clearing brings the page back to the state it
    was mounted in.  However hydration settled, a non-empty question
    that is typed and submitted, answered with a history, then cleared
    with the clear fulfilled, leaves exactly the initial state and no
    request in flight. *)
Theorem ask_then_clear_round_trip (SpeechRecognition : bool) (hyd : Settled)
    (q : string) (status : nat) (h : list ChatMessage.t)
    (r : option LatestResponse) (res : Response) :
  q <> "" ->
  exists w,
    run SpeechRecognition mounted
      [settle 0 hyd; input_query q; submit_form;
       settle 0 (ok status (APIResponse.mk (Some h) r));
       click_clear; settle 0 (Fulfilled res)] = Some w /\
    page w = initialState /\ inflight w = [].
Proof.
  intros Hq. destruct q as [|c q]; [done|].
  destruct hyd as [|[st [|[[h0|] [l0|]]]]], r as [l|];
    eexists; (split; [reflexivity|]); done.
Qed.

Lemma ask_then_clear_round_trip_witness :
  exists w,
    run true mounted
      [settle 0 Rejected; input_query "What is diabetes?"; submit_form;
       settle 0 (ok 200 (APIResponse.mk (Some two_entries) (Some seen)));
       click_clear; settle 0 (Fulfilled (mkResponse 204 Malformed))] = Some w /\
    page w = initialState /\ inflight w = [].
Proof.
  assert (Hq : "What is diabetes?" <> "") by discriminate.
  exact (ask_then_clear_round_trip true Rejected "What is diabetes?" 200
           two_entries (Some seen) (mkResponse 204 Malformed) Hq).
Defined.

(** ** What is rendered *)

(** X15.  The conversation is rendered entry by entry, in order: the
    bubble at each position carries that position as its key and the
    content of the history entry there, on the right for a Human entry
    and on the left otherwise; the welcome banner is shown exactly when
    there is no bubble. *)
Theorem conversation_rendered_in_order (s : State) :
  text <$> bubbles (render s) = ChatMessage.content <$> history s /\
  (forall i b,
     bubbles (render s) !! i = Some b ->
     key b = i /\
     exists msg, history s !! i = Some msg /\
                 (justify b = "justify-end" <-> ChatMessage.type msg = human)) /\
  (welcome (render s) = true <-> bubbles (render s) = []).
Proof.
  cbn [render bubbles welcome]. split; [|split].
  - apply list_eq. intros i.
    rewrite !list_lookup_fmap, list_lookup_imap.
    destruct (history s !! i); reflexivity.
  - intros i b. rewrite list_lookup_imap.
    destruct (history s !! i) as [msg|]; [|discriminate].
    intros [= <-]. split; [reflexivity|]. exists msg. split; [reflexivity|].
    cbn. destruct (ChatMessage.type msg); split; (reflexivity || discriminate).
  - destruct (history s); cbn; split; (reflexivity || discriminate).
Qed.

Lemma conversation_rendered_in_order_witness :
  exists b,
    bubbles (render (after (fetchHistory_settled
                              (ok 200 (APIResponse.mk (Some two_entries) None)))
                       initialState)) !! 1 = Some b /\
    key b = 1.
Proof.
  eexists. split; [reflexivity|].
  destruct (conversation_rendered_in_order
              (after (fetchHistory_settled
                        (ok 200 (APIResponse.mk (Some two_entries) None)))
                 initialState)) as (_ & H & _).
  exact (proj1 (H 1 _ eq_refl)).
Defined.

(** X16.  A fulfilled clear empties what is rendered of the session and
    nothing else: the welcome banner is back, with no bubble and no
    answer panel, while the text in the input, the attachment shown in
    its placeholder and the disabled state of the submit button stay as
    they were. *)
Theorem fresh_conversation_after_clear (s : State) (res : Response) :
  let v := render (after (clearChat_settled (Fulfilled res)) s) in
  welcome v = true /\ bubbles v = [] /\ panel v = None /\
  inputValue v = inputValue (render s) /\
  placeholder v = placeholder (render s) /\
  attachTitle v = attachTitle (render s) /\
  submitDisabled v = submitDisabled (render s).
Proof. done. Qed.

(** X17.  As soon as a submission is admitted, and before any reply, the
    page shows it: the welcome banner is gone, the last bubble is the
    query on the Human side, the submit button is disabled and shows the
    spinner; the input still holds the query and the answer panel still
    shows the previous answer. *)
Theorem submission_rendered_at_once (s : State) :
  nothing_to_send s = false ->
  let v := render (after handleSubmit s) in
  welcome v = false /\
  last (bubbles v)
  = Some {| key := length (history s); justify := "justify-end";
            colours := "bg-blue-500 text-white"; text := query s |} /\
  submitDisabled v = true /\ submitIcon v = "fas fa-spinner fa-spin" /\
  inputValue v = query s /\ panel v = panel (render s).
Proof.
  intros Hsend v. subst v. rewrite (after_handleSubmit_sends s Hsend).
  cbn [render welcome bubbles submitDisabled submitIcon inputValue panel
       history isLoading query latestResponse].
  rewrite imap_app, length_app; cbn. rewrite last_snoc, Nat.add_0_r.
  split; [|done]. apply Nat.eqb_neq. lia.
Qed.

Lemma submission_rendered_at_once_witness :
  welcome (render (after handleSubmit diabetes)) = false /\
  submitDisabled (render (after handleSubmit diabetes)) = true.
Proof.
  destruct (submission_rendered_at_once diabetes eq_refl)
    as (Hw & _ & Hd & _).
  split; [exact Hw | exact Hd].
Defined.

(** X18.  The answer panel is rendered exactly when there is a latest
    response whose answer is not empty, and its accordion never shows an
    empty line.  A parsed response whose latest response has an empty
    answer therefore removes a panel that was showing. *)
Theorem answer_panel_needs_answer (s : State) (status : nat)
    (data : APIResponse.t) (l : LatestResponse) :
  (is_Some (panel (render s)) <->
   exists l', latestResponse s = Some l' /\ answer l' <> "") /\
  (forall p, panel (render s) = Some p ->
             Forall (fun d => d <> SourceLine "" /\ d <> ValidationLine ""
                              /\ d <> ThoughtsBlock "")
                    (accordion p)) /\
  (APIResponse.latest_response data = Some l -> answer l = "" ->
   panel (render (after (handleSubmit_settled (ok status data)) s)) = None).
Proof.
  cbn [render panel]. split; [|split].
  - unfold latestPanel. destruct (latestResponse s) as [l'|].
    + destruct (truthy_string (answer l')) eqn:E; split.
      * intros _. exists l'. split; [reflexivity|].
        intros Hempty. apply truthy_string_empty in Hempty. congruence.
      * intros _. done.
      * intros [? Hp]. discriminate Hp.
      * intros (l2 & [= <-] & Hne). apply truthy_string_empty in E. done.
    + split; [intros [? Hp]; discriminate Hp | intros (? & ? & _); discriminate].
  - intros p. unfold latestPanel. destruct (latestResponse s) as [l'|]; [|discriminate].
    destruct (truthy_string (answer l')); [|discriminate].
    intros [= <-]. cbn. unfold details.
    destruct (truthy_string (source l')) eqn:E1,
             (truthy_string (validation l')) eqn:E2,
             (truthy_string (thoughts l')) eqn:E3; cbn;
      repeat apply List.Forall_cons; try apply List.Forall_nil;
      repeat split; intros [= Heq];
      apply truthy_string_empty in Heq; congruence.
  - intros Hl Ha. rewrite handleSubmit_settled_ok; cbn. rewrite Hl.
    cbn. rewrite Ha. reflexivity.
Qed.

Lemma answer_panel_needs_answer_witness :
  panel (render (after (handleSubmit_settled
                          (ok 200 (APIResponse.mk None (Some (mkLatest "" "t" "v" "s")))))
                   (after (fetchHistory_settled
                             (ok 200 (APIResponse.mk None (Some seen))))
                      initialState)))
  = None.
Proof.
  destruct (answer_panel_needs_answer
              (after (fetchHistory_settled (ok 200 (APIResponse.mk None (Some seen))))
                 initialState)
              200 (APIResponse.mk None (Some (mkLatest "" "t" "v" "s")))
              (mkLatest "" "t" "v" "s")) as (_ & _ & H).
  exact (H eq_refl eq_refl).
Defined.

(** ** The layout *)

(** X19.  The navigation bar highlights at most one link: a link is
    active exactly when its [href] is the current path, so a path that is
    none of the five hrefs (a nested path, say) highlights nothing. *)
Theorem at_most_one_active_link (pathname : string) :
  length (List.filter isActive (navLinks pathname)) <= 1 /\
  Forall (fun v => isActive v = true <-> href v = pathname) (navLinks pathname) /\
  (pathname ∉ ["/"; "/medical"; "/islamic"; "/insurance"; "/about"] ->
   List.filter isActive (navLinks pathname) = []).
Proof.
  unfold navLinks, NavLink; cbn [List.filter isActive href].
  split; [|split].
  - destruct (String.eqb_spec pathname "/") as [E1|E1];
    destruct (String.eqb_spec pathname "/medical") as [E2|E2];
    destruct (String.eqb_spec pathname "/islamic") as [E3|E3];
    destruct (String.eqb_spec pathname "/insurance") as [E4|E4];
    destruct (String.eqb_spec pathname "/about") as [E5|E5];
    cbn; (lia || congruence).
  - repeat apply List.Forall_cons; try apply List.Forall_nil;
      cbn [isActive href];
      (split; [intros H%String.eqb_eq; congruence
              | intros <-; apply String.eqb_refl]).
  - intros Hnot.
    destruct (String.eqb_spec pathname "/") as [E|_];
      [exfalso; apply Hnot; rewrite E; apply list_elem_of_In; cbn; tauto|].
    destruct (String.eqb_spec pathname "/medical") as [E|_];
      [exfalso; apply Hnot; rewrite E; apply list_elem_of_In; cbn; tauto|].
    destruct (String.eqb_spec pathname "/islamic") as [E|_];
      [exfalso; apply Hnot; rewrite E; apply list_elem_of_In; cbn; tauto|].
    destruct (String.eqb_spec pathname "/insurance") as [E|_];
      [exfalso; apply Hnot; rewrite E; apply list_elem_of_In; cbn; tauto|].
    destruct (String.eqb_spec pathname "/about") as [E|_];
      [exfalso; apply Hnot; rewrite E; apply list_elem_of_In; cbn; tauto|].
    reflexivity.
Qed.

Lemma at_most_one_active_link_witness :
  List.filter isActive (navLinks "/insurance/claims") = [].
Proof.
  apply (at_most_one_active_link "/insurance/claims").
  intros H%list_elem_of_In. cbn in H. intuition discriminate.
Defined.

Lemma length_appendStars (Star Random : Type)
    (createStar : Random -> Star * Random)
    (n : nat) (children : list Star) (g : Random) :
  length (fst (appendStars Star Random createStar n children g))
  = length children + n.
Proof.
  revert children g. induction n as [|n IH]; intros children g; cbn.
  - lia.
  - destruct (createStar g) as [star g']. rewrite IH, length_app; cbn. lia.
Qed.

(** X20.  The star effect fills an empty container with exactly fifty
    stars and is idempotent: on a container that already has children,
    or when there is no container, it adds nothing and draws no random
    number, so running it again after it has run changes nothing. *)
Theorem stars_generated_once (Star Random : Type)
    (createStar : Random -> Star * Random)
    (container : option (list Star)) (g : Random) :
  let run1 := generateStars Star Random createStar container g in
  (container = Some [] ->
   exists stars, fst run1 = Some stars /\ length stars = 50) /\
  (container <> Some [] -> run1 = (container, g)) /\
  generateStars Star Random createStar (fst run1) (snd run1) = run1.
Proof.
  cbn zeta. unfold generateStars.
  destruct container as [[|c children]|]; cbn [length Nat.eqb].
  - pose proof (length_appendStars Star Random createStar 50 [] g) as Hlen.
    destruct (appendStars Star Random createStar 50 [] g) as [stars g'] eqn:E.
    cbn in Hlen. cbn [fst snd]. split; [|split].
    + intros _. exists stars. done.
    + done.
    + destruct stars; [discriminate|]. reflexivity.
  - split; [discriminate|]. done.
  - split; [discriminate|]. done.
Qed.

Lemma stars_generated_once_witness :
  exists stars : list nat,
    fst (generateStars nat nat (fun g => (g, S g)) (Some []) 0) = Some stars /\
    length stars = 50.
Proof.
  exact (proj1 (stars_generated_once nat nat (fun g => (g, S g)) (Some []) 0)
           eq_refl).
Defined.

(** ** One transcript per listening session *)

Lemma step_sessions (SpeechRecognition : bool) (w w' : World) (e : Event) :
  step SpeechRecognition w e = Some w' ->
  w' = w \/
  exists m w0, handler SpeechRecognition m /\ w' = dispatch m w0 /\
               page w0 = page w /\
               (sessions w0 = sessions w \/
                exists i, sessions w0 = delete i (sessions w)).
Proof.
  intros Hstep.
  assert (Hd : forall m w0, handler SpeechRecognition m ->
                 page w0 = page w ->
                 (sessions w0 = sessions w \/
                  exists i, sessions w0 = delete i (sessions w)) ->
                 Some (dispatch m w0) = Some w' ->
                 w' = w \/
                 exists m w0, handler SpeechRecognition m /\ w' = dispatch m w0 /\
                              page w0 = page w /\
                              (sessions w0 = sessions w \/
                               exists i, sessions w0 = delete i (sessions w))).
  { intros m w0 Hm Hp Hs [= <-]. right. exists m, w0. done. }
  destruct e; cbn [step] in Hstep.
  - destruct (inflight w !! i) as [[k req]|]; [|discriminate].
    eapply Hd; [apply (handler_settled _ k r) | | | exact Hstep];
      [reflexivity | left; reflexivity].
  - eapply Hd; [apply handler_query | | | exact Hstep];
      [reflexivity | left; reflexivity].
  - eapply Hd; [apply handler_lang | | | exact Hstep];
      [reflexivity | left; reflexivity].
  - eapply Hd; [apply handler_file | | | exact Hstep];
      [reflexivity | left; reflexivity].
  - eapply Hd; [apply handler_plus | | | exact Hstep];
      [reflexivity | left; reflexivity].
  - destruct (showUploadMenu (page w)); [|discriminate].
    eapply Hd; [apply handler_upload | | | exact Hstep];
      [reflexivity | left; reflexivity].
  - eapply Hd; [apply handler_voice | | | exact Hstep];
      [reflexivity | left; reflexivity].
  - destruct (sessions w !! i); [|discriminate].
    eapply Hd; [apply handler_onstart | | | exact Hstep];
      [reflexivity | left; reflexivity].
  - destruct (sessions w !! i); [|discriminate].
    eapply Hd; [apply handler_onresult | | | exact Hstep];
      [reflexivity | left; reflexivity].
  - destruct (sessions w !! i); [|discriminate].
    eapply Hd; [apply handler_onend | | | exact Hstep];
      [reflexivity | right; exists i; reflexivity].
  - destruct (isLoading (page w)); [left; congruence|].
    eapply Hd; [apply handler_submit | | | exact Hstep];
      [reflexivity | left; reflexivity].
  - eapply Hd; [apply handler_clear | | | exact Hstep];
      [reflexivity | left; reflexivity].
Qed.

Lemma starts_as_configured (SpeechRecognition : bool) (cs : list Call) :
  Forall (expected SpeechRecognition) cs -> Forall as_configured (starts cs).
Proof.
  induction 1 as [|c cs Hc _ IH]; [constructor|].
  destruct c; cbn; try exact IH.
  constructor; [|exact IH]. destruct Hc as (_ & Hi & Hm). split; assumption.
Qed.

(** Every recognition the page has started carries the settings of
    lines 73-74. *)
Lemma sessions_as_configured (SpeechRecognition : bool) (w : World) :
  reachable SpeechRecognition w -> Forall as_configured (sessions w).
Proof.
  intros [es Hrun].
  apply (run_invariant SpeechRecognition
           (fun w => Forall as_configured (sessions w)))
    with (es := es) (w := mounted); [|exact Hrun|constructor].
  intros w0 e w1 Hstep Hw0.
  destruct (step_sessions _ _ _ _ Hstep)
    as [->|(m & w2 & Hm & -> & Hp & Hs)]; [exact Hw0|].
  unfold dispatch; cbn [sessions]. apply Forall_app. split.
  - destruct Hs as [->|[i ->]]; [exact Hw0 | apply Forall_delete, Hw0].
  - eapply starts_as_configured, handler_calls_expected, Hm.
Qed.

Lemma engine_run_ended (rcg : Recognition) (cbs : list Callback) (p : Phase) :
  engine_run rcg ended cbs = Some p -> cbs = [].
Proof.
  destruct cbs as [|c cbs]; [reflexivity|]. cbn. destruct c; discriminate.
Qed.

(** Without interim results a completed session that recognised
    something is the start, one final result and the end. *)
Lemma engine_single_shot (rcg : Recognition) (cbs : list Callback) :
  interimResults rcg = false ->
  completed rcg cbs = true -> successful cbs = true ->
  exists ev, cbs = [engine_start; engine_result ev true; engine_end] /\
             well_formed rcg ev = true.
Proof.
  intros Hi Hdone Hok. unfold completed in Hdone.
  destruct cbs as [|c1 cbs]; [discriminate|].
  destruct c1; cbn in Hdone; try discriminate.
  - (* started *)
    destruct cbs as [|c2 cbs]; [discriminate|].
    destruct c2; cbn in Hdone; try discriminate.
    + (* a result *)
      destruct (well_formed rcg ev) eqn:Hwf; cbn in Hdone; [|discriminate].
      destruct isFinal; [|rewrite Hi in Hdone; discriminate].
      destruct cbs as [|c3 cbs]; [discriminate|].
      destruct c3; cbn in Hdone; try discriminate.
      destruct (engine_run rcg ended cbs) as [p|] eqn:Hrest; [|discriminate].
      apply engine_run_ended in Hrest as ->. exists ev. done.
    + (* ended without a result *)
      destruct (engine_run rcg ended cbs) as [p|] eqn:Hrest; [|discriminate].
      apply engine_run_ended in Hrest as ->. discriminate.
  - (* ended before it started *)
    destruct (engine_run rcg ended cbs) as [p|] eqn:Hrest; [|discriminate].
    apply engine_run_ended in Hrest as ->. discriminate.
Qed.

Lemma well_formed_heard (rcg : Recognition) (ev : ResultEvent) :
  maxAlternatives rcg = 1 -> well_formed rcg ev = true ->
  exists alt, results ev !! 0 = Some [alt] /\ heard ev = Some alt.
Proof.
  unfold well_formed, heard. intros ->.
  destruct (results ev) as [|r rs]; [discriminate|]. cbn.
  destruct r as [|alt [|alt' r]]; cbn; try discriminate.
  intros _. exists alt. done.
Qed.

(** C9.  Every listening session of a recognition the page started that
    runs to its end with a recognised result consists of [onstart], one
    result event and [onend]: the page asked for no interim results, so
    the engine delivers its final result and nothing else.  Over the
    session [setQuery] is called exactly once, with the transcript of
    the single alternative of that result; the query is that transcript,
    not the previous text followed by it, and the page is not listening
    afterwards. *)
Theorem one_transcript_per_session (SpeechRecognition : bool) (w : World)
    (i : nat) (rcg : Recognition) (cbs : list Callback) :
  reachable SpeechRecognition w -> sessions w !! i = Some rcg ->
  completed rcg cbs = true -> successful cbs = true ->
  exists ev alt w',
    cbs = [engine_start; engine_result ev true; engine_end] /\
    results ev !! 0 = Some [alt] /\
    run SpeechRecognition w (callback_event i <$> cbs) = Some w' /\
    query_writes (trace w') = query_writes (trace w) ++ [transcript alt] /\
    query (page w') = transcript alt /\
    isListening (page w') = false /\
    sessions w' = delete i (sessions w).
Proof.
  intros Hreach Hi Hdone Hok.
  pose proof (sessions_as_configured _ _ Hreach) as Hall.
  rewrite Forall_lookup in Hall. destruct (Hall i rcg Hi) as [Hint Hmax].
  destruct (engine_single_shot rcg cbs Hint Hdone Hok) as (ev & -> & Hwf).
  destruct (well_formed_heard rcg ev Hmax Hwf) as (alt & H0 & _).
  destruct (run_one_result SpeechRecognition w i ev [alt] alt
              (mk_is_Some _ _ Hi) H0 eq_refl)
    as (w' & Hrun & Hq & Hwrites & Hl & Hs).
  exists ev, alt, w'. done.
Qed.

Lemma one_transcript_per_session_witness :
  exists w w',
    run true mounted dictating = Some w /\
    query (page w) = "typed text" /\
    run true w [rec_onstart 0;
                rec_onresult 0 (mkResultEvent [[mkAlt "What is diabetes?" 90]]);
                rec_onend 0] = Some w' /\
    query_writes (trace w') = ["typed text"; "What is diabetes?"] /\
    query (page w') = "What is diabetes?".
Proof.
  exists (dispatch (toggleVoice true)
            (dispatch (onChange_query "typed text") mounted)).
  destruct (one_transcript_per_session true
              (dispatch (toggleVoice true)
                 (dispatch (onChange_query "typed text") mounted))
              0
              {| rec_lang := "en-US"; interimResults := false;
                 maxAlternatives := 1 |}
              [engine_start;
               engine_result (mkResultEvent [[mkAlt "What is diabetes?" 90]]) true;
               engine_end]
              (ex_intro _ dictating eq_refl) eq_refl eq_refl eq_refl)
    as (ev & alt & w' & Hcbs & H0 & Hrun & Hwrites & Hq & _).
  injection Hcbs as <-. injection H0 as <-.
  exists w'. split; [reflexivity|]. split; [reflexivity|].
  split; [exact Hrun|]. split; [exact Hwrites | exact Hq].
Defined.

(** Had the page asked for interim results, the same handlers would
    apply more than one transcript in a session: the count above rests
    on the setting of line 73. *)
Lemma interim_results_would_apply_more :
  let rcg := {| rec_lang := "en-US"; interimResults := true;
                maxAlternatives := 1 |} in
  let cbs := [engine_start;
              engine_result (mkResultEvent [[mkAlt "what" 50]]) false;
              engine_result (mkResultEvent [[mkAlt "what is" 90]]) true;
              engine_end] in
  completed rcg cbs = true /\ successful cbs = true /\
  exists w',
    run true {| page := initialState; inflight := []; sessions := [rcg];
                trace := [] |} (callback_event 0 <$> cbs) = Some w' /\
    query_writes (trace w') = ["what"; "what is"].
Proof.
  cbn zeta. split; [reflexivity|]. split; [reflexivity|].
  eexists. split; reflexivity.
Qed.
